(** * Acoustic front end of the portable decoder: [decoder/signal.h]

    A shallow embedding of the option classes ([FrameOpts],
    [SpectrogramOpts], [FbankOpts], [MfccOpts]), of the online frame
    splitter and of the three feature computers declared in
    [decoder/signal.h], followed by the properties of that code.

    Conventions of the embedding:
    - [Int32] values are integers of [Z]; every arithmetic result is
      reduced to the signed 32-bit range ([Int32.wrap]);
    - [Float32] and [double] values are binary64 floats ([PrimFloat]);
      every binary32 value is a binary64 value, and a store into a
      [Float32] object rounds to binary32 ([to_f32]);
    - a call that can stop the process returns a [result]: [ASSERT]
      failures, integer division by zero, a failed allocation, or a
      failure inside a routine defined outside the header;
    - routines that [signal.h] only declares are fields of [Externals]. *)

From Stdlib Require Import String ZArith List Bool Lia Floats.
Import ListNotations.
Open Scope Z_scope.

(** ** Signed 32-bit integers *)

Module Int32.

Definition min_signed : Z := - 2 ^ 31.
Definition max_signed : Z := 2 ^ 31 - 1.

Definition in_range (z : Z) : Prop := min_signed <= z <= max_signed.

(** Two's complement reduction of an integer to 32 bits. *)
Definition wrap (z : Z) : Z := (z + 2 ^ 31) mod 2 ^ 32 - 2 ^ 31.

Definition add (a b : Z) : Z := wrap (a + b).
Definition sub (a b : Z) : Z := wrap (a - b).
Definition mul (a b : Z) : Z := wrap (a * b).

(** [a / b] of C++: the quotient is truncated towards zero.  The one
    quotient that is not an [Int32], [min_signed / -1], is undefined in
    C++ (the usual hardware traps); here it is reduced like the results of
    the other operations, to [min_signed]. *)
Definition quot (a b : Z) : Z := wrap (Z.quot a b).

(** [a >> 1] on a signed operand (arithmetic shift). *)
Definition shr1 (a : Z) : Z := Z.shiftr a 1.

End Int32.

(** ** Process-level failures *)

Inductive fault : Set :=
| AssertionFailed   (* an ASSERT of signal.h does not hold *)
| DivisionByZero    (* integer division by zero *)
| BadAlloc          (* new[] with a negative length *)
| HelperFailed.     (* failure inside a routine defined outside signal.h *)

Inductive result (A : Type) : Type :=
| Ok (a : A)
| Halt (f : fault).

Arguments Ok {A} a.
Arguments Halt {A} f.

Definition bind {A B : Type} (m : result A) (k : A -> result B) : result B :=
  match m with
  | Ok a => k a
  | Halt f => Halt f
  end.

Notation "x <- m ;; k" := (bind m (fun x => k))
  (at level 61, m at next level, right associativity).
Notation "m ;;; k" := (bind m (fun _ => k))
  (at level 61, right associativity).

(** [ASSERT(cond)] *)
Definition ASSERT (cond : bool) : result unit :=
  if cond then Ok tt else Halt AssertionFailed.

(** Outcome of a routine defined outside [signal.h] that can fail. *)
Definition external {A : Type} (o : option A) : result A :=
  match o with
  | Some a => Ok a
  | None => Halt HelperFailed
  end.

(** ** Floating-point values *)

Definition Float32 : Set := float.

(** Rounding of a binary64 value to the nearest binary32 value (ties to
    even), the conversion performed by a store into a [Float32]. *)
Definition to_f32 (x : float) : Float32 :=
  SF2Prim
    match Prim2SF x with
    | S754_finite s m e =>
        binary_normalize 24 128 (cond_Zopp s (Zpos m)) e s
    | sf => sf
    end.

(** Conversion of an [Int32] to [double]; it is exact. *)
Definition double_of_Int32 (z : Z) : float :=
  if z <? 0 then (- of_uint63 (Uint63.of_Z (- z)))%float
  else of_uint63 (Uint63.of_Z z).

(** [new Float32[n]]: the content of the fresh array is indeterminate in
    C++; the embedding fills it with zeros. *)
Definition new_Float32 (n : Z) : result (list Float32) :=
  if n <? 0 then Halt BadAlloc
  else Ok (repeat 0%float (Z.to_nat n)).

(** ** Declarations taken from the other headers *)

(** Modelled from the spec: enum [WindowType] of [decoder/common.h]
    (window type enum: none / rectangular / Hamming / Hanning);
    [signal.h] itself names [kNone] and [kHamm]. *)
Inductive WindowType : Set := kNone | kRect | kHamm | kHann.

Definition WindowType_eqb (a b : WindowType) : bool :=
  match a, b with
  | kNone, kNone | kRect, kRect | kHamm, kHamm | kHann, kHann => true
  | _, _ => false
  end.

(** Routines and constants that [signal.h] uses and that are defined in
    [decoder/common.h], [decoder/config.h], [decoder/fft-computer.h],
    the C library and [signal.cc]. *)
Record Externals : Type := {
  (* decoder/config.h: [parser->AddOptions(type, name, &field)] gives the
     bound field its value at once; the functions below return the new
     value of the field from its current one. *)
  ConfigureParser : Type;
  AddOptions_Int32  : ConfigureParser -> string -> string -> Z -> Z;
  AddOptions_Float32 : ConfigureParser -> string -> string -> Float32 -> Float32;
  AddOptions_Bool   : ConfigureParser -> string -> string -> bool -> bool;
  AddOptions_string : ConfigureParser -> string -> string -> string -> string;
  (* signal.cc *)
  StringToWindow : string -> option WindowType;
  ComputeWindow : Z -> WindowType -> list Float32;
  ComputeMelFilters : Z -> Z -> Z -> Z -> Z -> option (list (list Float32));
  ComputeDctMatrix : Z -> Z -> list Float32;
  (* decoder/common.h *)
  RoundUpToNearestPowerOfTwo : Z -> Z;
  PI : float;
  (* decoder/fft-computer.h *)
  FFTComputer : Type;
  FFTComputer_new : Z -> FFTComputer;
  (* <cmath> *)
  sin : float -> float
}.

(** ** FrameOpts *)

Record FrameOpts : Type := {
  frame_length : Z;
  frame_shift : Z;
  sample_rate : Z;
  window_type : WindowType;
  preemph_coeff : Float32;
  remove_dc : bool
}.

(** [FrameOpts(length, shift, frequency, coeff, window, remove_dc)] *)
Definition FrameOpts_new (length shift frequency : Z) (coeff : Float32)
    (window : WindowType) (remove_dc : bool) : FrameOpts :=
  {| frame_length := length;
     frame_shift := shift;
     sample_rate := frequency;
     window_type := window;
     preemph_coeff := coeff;
     remove_dc := remove_dc |}.

(** [FrameOpts()], all arguments defaulted; the literal is the double
    nearest to 0.97, converted to [Float32]. *)
Definition FrameOpts_default : FrameOpts :=
  FrameOpts_new 400 160 16000 (to_f32 0x1.f0a3d70a3d70ap-1) kHamm true.

(** [FrameOpts::Check]: [sample_rate] is used as a truth value, that is
    compared with zero. *)
Definition FrameOpts_Check (o : FrameOpts) : result unit :=
  ASSERT (negb (sample_rate o =? 0) && (frame_shift o <=? frame_length o)) ;;;
  ASSERT ((0 <=? preemph_coeff o)%float && (preemph_coeff o <? 1)%float).


(** ** SpectrogramOpts *)

Record SpectrogramOpts : Type := {
  apply_log : bool;
  apply_pow : bool;
  use_log_raw_energy : bool;
  frame_opts : FrameOpts
}.

(** [SpectrogramOpts(const FrameOpts &opts)] *)
Definition SpectrogramOpts_of_FrameOpts (opts : FrameOpts) : SpectrogramOpts :=
  {| apply_log := true;
     apply_pow := true;
     use_log_raw_energy := true;
     frame_opts := opts |}.

(** [SpectrogramOpts(power, log, use_energy)]; [frame_opts] is
    default-constructed. *)
Definition SpectrogramOpts_new (power log use_energy : bool) : SpectrogramOpts :=
  {| apply_log := log;
     apply_pow := power;
     use_log_raw_energy := use_energy;
     frame_opts := FrameOpts_default |}.

Definition SpectrogramOpts_default : SpectrogramOpts :=
  SpectrogramOpts_new true true true.

Definition SpectrogramOpts_Check (o : SpectrogramOpts) : result unit :=
  FrameOpts_Check (frame_opts o).

(** ** FbankOpts *)

Record FbankOpts : Type := {
  num_mel_bins : Z;
  lower_bound : Z;
  upper_bound : Z;
  fbank_apply_log : bool;          (* FbankOpts::apply_log *)
  spectrogram_opts : SpectrogramOpts
}.

(** Assignments to the members of an embedded [SpectrogramOpts]. *)
Definition set_apply_log (b : bool) (o : SpectrogramOpts) : SpectrogramOpts :=
  {| apply_log := b;
     apply_pow := apply_pow o;
     use_log_raw_energy := use_log_raw_energy o;
     frame_opts := frame_opts o |}.

Definition set_apply_pow (b : bool) (o : SpectrogramOpts) : SpectrogramOpts :=
  {| apply_log := apply_log o;
     apply_pow := b;
     use_log_raw_energy := use_log_raw_energy o;
     frame_opts := frame_opts o |}.

Definition set_use_log_raw_energy (b : bool) (o : SpectrogramOpts) : SpectrogramOpts :=
  {| apply_log := apply_log o;
     apply_pow := apply_pow o;
     use_log_raw_energy := b;
     frame_opts := frame_opts o |}.

(** [spectrogram_opts.apply_log = spectrogram_opts.use_log_raw_energy = false] *)
Definition force_raw_power (o : SpectrogramOpts) : SpectrogramOpts :=
  set_apply_log false (set_use_log_raw_energy false o).

(** Assignments to the public members of an [FbankOpts]. *)
Definition set_spectrogram_opts (s : SpectrogramOpts) (o : FbankOpts)
  : FbankOpts :=
  {| num_mel_bins := num_mel_bins o;
     lower_bound := lower_bound o;
     upper_bound := upper_bound o;
     fbank_apply_log := fbank_apply_log o;
     spectrogram_opts := s |}.

Definition set_fbank_apply_log (b : bool) (o : FbankOpts) : FbankOpts :=
  {| num_mel_bins := num_mel_bins o;
     lower_bound := lower_bound o;
     upper_bound := upper_bound o;
     fbank_apply_log := b;
     spectrogram_opts := spectrogram_opts o |}.

(** [FbankOpts(const SpectrogramOpts &opts)]: the argument is copied as
    it is. *)
Definition FbankOpts_of_SpectrogramOpts (opts : SpectrogramOpts) : FbankOpts :=
  {| num_mel_bins := 23;
     lower_bound := 20;
     upper_bound := 0;
     fbank_apply_log := true;
     spectrogram_opts := opts |}.

(** [FbankOpts(num_bins, low, high, power, log)]: [power] is not used;
    [spectrogram_opts] is default-constructed, then two of its flags are
    cleared. *)
Definition FbankOpts_new (num_bins low high : Z) (power log : bool) : FbankOpts :=
  {| num_mel_bins := num_bins;
     lower_bound := low;
     upper_bound := high;
     fbank_apply_log := log;
     spectrogram_opts := force_raw_power SpectrogramOpts_default |}.

Definition FbankOpts_default : FbankOpts := FbankOpts_new 23 20 0 true true.

Definition FbankOpts_Check (o : FbankOpts) : result unit :=
  SpectrogramOpts_Check (spectrogram_opts o) ;;;
  ASSERT (3 <=? num_mel_bins o) ;;;
  ASSERT (0 <=? lower_bound o).

(** ** MfccOpts *)

Record MfccOpts : Type := {
  fbank_opts : FbankOpts;
  num_ceps : Z;
  use_energy : bool;
  cepstral_lifter : Float32
}.

(** [fbank_opts.spectrogram_opts.apply_pow = fbank_opts.apply_log = true] *)
Definition force_log_mel (o : FbankOpts) : FbankOpts :=
  set_fbank_apply_log true
    (set_spectrogram_opts (set_apply_pow true (spectrogram_opts o)) o).

(** [MfccOpts(num_ceps, energy, cepstral)] *)
Definition MfccOpts_new (ceps : Z) (energy : bool) (cepstral : Float32) : MfccOpts :=
  {| fbank_opts := force_log_mel FbankOpts_default;
     num_ceps := ceps;
     use_energy := energy;
     cepstral_lifter := cepstral |}.

Definition MfccOpts_default : MfccOpts := MfccOpts_new 13 true 22%float.

(** Assignment to the public member [fbank_opts] of an [MfccOpts]. *)
Definition set_fbank_opts (f : FbankOpts) (o : MfccOpts) : MfccOpts :=
  {| fbank_opts := f;
     num_ceps := num_ceps o;
     use_energy := use_energy o;
     cepstral_lifter := cepstral_lifter o |}.

(** [MfccOpts(const FbankOpts opts)] *)
Definition MfccOpts_of_FbankOpts (opts : FbankOpts) : MfccOpts :=
  {| fbank_opts := opts;
     num_ceps := 13;
     use_energy := true;
     cepstral_lifter := 23%float |}.

Definition MfccOpts_Check (o : MfccOpts) : result unit :=
  FbankOpts_Check (fbank_opts o) ;;;
  ASSERT (1 <=? num_ceps o).

(** ** ParseConfigure *)

Section Parse.

Variable ext : Externals.
Variable parser : ConfigureParser ext.

Definition FrameOpts_ParseConfigure (o : FrameOpts) : result FrameOpts :=
  let length := AddOptions_Int32 ext parser "FrameOpts" "frame_length" (frame_length o) in
  let shift := AddOptions_Int32 ext parser "FrameOpts" "frame_shift" (frame_shift o) in
  let coeff := AddOptions_Float32 ext parser "FrameOpts" "preemph_coeff" (preemph_coeff o) in
  let rate := AddOptions_Int32 ext parser "FrameOpts" "sample_rate" (sample_rate o) in
  let dc := AddOptions_Bool ext parser "FrameOpts" "remove_dc" (remove_dc o) in
  let window := AddOptions_string ext parser "FrameOpts" "window" EmptyString in
  w <- external (StringToWindow ext window) ;;
  Ok {| frame_length := length;
        frame_shift := shift;
        sample_rate := rate;
        window_type := w;
        preemph_coeff := coeff;
        remove_dc := dc |}.

Definition SpectrogramOpts_ParseConfigure (o : SpectrogramOpts)
  : result SpectrogramOpts :=
  f <- FrameOpts_ParseConfigure (frame_opts o) ;;
  Ok {| apply_log :=
          AddOptions_Bool ext parser "SpectrogramOpts" "apply_log" (apply_log o);
        apply_pow :=
          AddOptions_Bool ext parser "SpectrogramOpts" "apply_pow" (apply_pow o);
        use_log_raw_energy :=
          AddOptions_Bool ext parser "SpectrogramOpts" "use_log_raw_energy"
            (use_log_raw_energy o);
        frame_opts := f |}.

Definition FbankOpts_ParseConfigure (o : FbankOpts) : result FbankOpts :=
  s <- SpectrogramOpts_ParseConfigure (spectrogram_opts o) ;;
  Ok {| num_mel_bins :=
          AddOptions_Int32 ext parser "FbankOpts" "num_mel_bins" (num_mel_bins o);
        lower_bound :=
          AddOptions_Int32 ext parser "FbankOpts" "lower_bound" (lower_bound o);
        upper_bound :=
          AddOptions_Int32 ext parser "FbankOpts" "upper_bound" (upper_bound o);
        fbank_apply_log :=
          AddOptions_Bool ext parser "FbankOpts" "apply_log" (fbank_apply_log o);
        spectrogram_opts := force_raw_power s |}.

Definition MfccOpts_ParseConfigure (o : MfccOpts) : result MfccOpts :=
  f <- FbankOpts_ParseConfigure (fbank_opts o) ;;
  Ok {| fbank_opts := force_log_mel f;
        num_ceps := AddOptions_Int32 ext parser "MfccOpts" "num_ceps" (num_ceps o);
        use_energy :=
          AddOptions_Bool ext parser "MfccOpts" "use_energy" (use_energy o);
        cepstral_lifter :=
          AddOptions_Float32 ext parser "MfccOpts" "cepstral_lifter"
            (cepstral_lifter o) |}.

End Parse.

(** ** FrameSplitter *)

Record FrameSplitter : Type := {
  frame_opts_ : FrameOpts;
  window_ : option (list Float32);   (* NULL or [frame_length] coefficients *)
  online_use_ : list Float32;        (* [frame_length * 2] samples *)
  prev_discard_size_ : Z
}.

Definition FrameSplitter_Reset (fs : FrameSplitter) : FrameSplitter :=
  {| frame_opts_ := frame_opts_ fs;
     window_ := window_ fs;
     online_use_ := online_use_ fs;
     prev_discard_size_ := 0 |}.

Definition FrameSplitter_FrameLength (fs : FrameSplitter) : Z :=
  frame_length (frame_opts_ fs).

Definition FrameSplitter_FrameShift (fs : FrameSplitter) : Z :=
  frame_shift (frame_opts_ fs).

Definition FrameSplitter_SampleRate (fs : FrameSplitter) : Z :=
  sample_rate (frame_opts_ fs).

(** [FrameSplitter::NumFrames]: the value returned, paired with whether
    [LOG_WARN] was reached. *)
Definition FrameSplitter_NumFrames (fs : FrameSplitter) (num_samps : Z)
  : result (Z * bool) :=
  if frame_shift (frame_opts_ fs) =? 0 then Halt DivisionByZero
  else
    let num_frames :=
      Int32.add
        (Int32.quot
           (Int32.sub (Int32.add num_samps (prev_discard_size_ fs))
                      (frame_length (frame_opts_ fs)))
           (frame_shift (frame_opts_ fs)))
        1 in
    Ok (num_frames, num_frames =? 0).

(** [FrameSplitter::FrameForIndex] is defined in [signal.cc].  A call
    [FrameForIndex(signal, num_samps, index, frame, NULL)] is a function of
    the splitter, the signal, [num_samps], [index], the memory that holds
    the destination and the offset of [frame] in it; it gives the splitter
    and the memory after the call. *)
Definition FrameForIndex_t : Type :=
  FrameSplitter -> list Float32 -> Z -> Z -> list Float32 -> Z ->
  result (FrameSplitter * list Float32).

Section Frame.

Variable FrameForIndex : FrameForIndex_t.
Variable signal : list Float32.
Variable num_samps : Z.
Variable stride : Z.

(** The loop [for (t = 0; t < num_frames; t++)], with [count] iterations
    left. *)
Fixpoint Frame_loop (count : nat) (t : Z) (fs : FrameSplitter)
    (frames : list Float32) : result (FrameSplitter * list Float32) :=
  match count with
  | O => Ok (fs, frames)
  | S count' =>
      r <- FrameForIndex fs signal num_samps t frames (Int32.mul stride t) ;;
      Frame_loop count' (Int32.add t 1) (fst r) (snd r)
  end.

(** [FrameSplitter::Frame]: the value returned, the splitter and the
    destination memory after the call. *)
Definition FrameSplitter_Frame (fs : FrameSplitter) (frames : list Float32)
  : result (Z * FrameSplitter * list Float32) :=
  ASSERT (frame_length (frame_opts_ fs) <=? stride) ;;;
  n <- FrameSplitter_NumFrames fs num_samps ;;
  let num_frames := fst n in
  r <- Frame_loop (Z.to_nat num_frames) 0 fs frames ;;
  Ok (num_frames, fst r, snd r).

End Frame.

(** ** Online framing, from the specification *)

(** Copy of [data] into [mem] from position [off] on; what falls outside
    [mem] is dropped. *)
Definition write_at (mem : list Float32) (off : nat) (data : list Float32)
  : list Float32 :=
  firstn (length mem)
    (firstn off mem ++ data ++ skipn (off + length data) mem).

(** The samples a call works on: the carried tail, then the new samples. *)
Definition stream_of (fs : FrameSplitter) (signal : list Float32)
    (num_samps : Z) : list Float32 :=
  firstn (Z.to_nat (prev_discard_size_ fs)) (online_use_ fs)
    ++ firstn (Z.to_nat num_samps) signal.

(** The samples of frame [index] in a stream. *)
Definition frame_of (stream : list Float32) (len shift index : Z)
  : list Float32 :=
  firstn (Z.to_nat len) (skipn (Z.to_nat (index * shift)) stream).

(** The splitter once [num_frames] frames of [stream] are consumed: the
    samples from the start of the next frame on are kept in
    [online_use_[0 : prev_discard_size_]]. *)
Definition carry_tail (fs : FrameSplitter) (stream : list Float32)
    (num_frames : Z) : FrameSplitter :=
  let tail :=
    skipn (Z.to_nat (num_frames * frame_shift (frame_opts_ fs))) stream in
  {| frame_opts_ := frame_opts_ fs;
     window_ := window_ fs;
     online_use_ := write_at (online_use_ fs) 0 tail;
     prev_discard_size_ := Z.of_nat (length tail) |}.

(** Modelled from the spec: [FrameSplitter::FrameForIndex], defined in
    [signal.cc].  The specification asks that it "copies [frame_length]
    samples for the given frame index into dest, correctly stitching
    together previously carried-over tail samples with newly arrived
    samples", the carried tail being "the unconsumed samples from the
    previous incremental call", kept according to [signal.h] in
    [online_use_[0 : prev_discard_size_]].  Frame [index] is read at
    [index * frame_shift] of the stitched stream; with the last frame of
    the call the samples from the start of the next frame on become the
    carried tail. *)
Definition FrameForIndex_spec : FrameForIndex_t :=
  fun fs signal num_samps index mem off =>
    n <- FrameSplitter_NumFrames fs num_samps ;;
    let num_frames := fst n in
    let stream := stream_of fs signal num_samps in
    let frame :=
      frame_of stream (frame_length (frame_opts_ fs))
        (frame_shift (frame_opts_ fs)) index in
    let mem' := write_at mem (Z.to_nat off) frame in
    if index =? num_frames - 1 then Ok (carry_tail fs stream num_frames, mem')
    else Ok (fs, mem').

(** ** The three feature computers *)

(** Indices [0, 1, ..., n - 1] of a loop [for (i = 0; i < n; i++)]. *)
Definition indices (n : Z) : list Z := map Z.of_nat (seq 0 (Z.to_nat n)).

Section Computers.

Variable ext : Externals.

(** [FrameSplitter::FrameSplitter]: [Reset()], [Check()], then the two
    allocations. *)
Definition FrameSplitter_new (opts : FrameOpts) : result FrameSplitter :=
  FrameOpts_Check opts ;;;
  online <- new_Float32 (Int32.mul (frame_length opts) 2) ;;
  window <-
    (if WindowType_eqb (window_type opts) kNone then Ok None
     else
       new_Float32 (frame_length opts) ;;;
       Ok (Some (ComputeWindow ext (frame_length opts) (window_type opts)))) ;;
  Ok {| frame_opts_ := opts;
        window_ := window;
        online_use_ := online;
        prev_discard_size_ := 0 |}.

(** [FrameSplitter::PaddingLength]; the value is returned as an [Int32]. *)
Definition FrameSplitter_PaddingLength (fs : FrameSplitter) : Z :=
  Int32.wrap (RoundUpToNearestPowerOfTwo ext (frame_length (frame_opts_ fs))).

(** *** SpectrogramComputer *)

Record SpectrogramComputer : Type := {
  apply_pow_ : bool;
  apply_log_ : bool;
  use_log_raw_energy_ : bool;
  padding_length_ : Z;
  splitter : FrameSplitter;
  fft_computer : FFTComputer ext;
  realfft_cache_ : list Float32
}.

Definition SpectrogramComputer_new (spectrogram_opts : SpectrogramOpts)
  : result SpectrogramComputer :=
  fs <- FrameSplitter_new (frame_opts spectrogram_opts) ;;
  let padding_length := FrameSplitter_PaddingLength fs in
  cache <- new_Float32 padding_length ;;
  Ok {| apply_pow_ := apply_pow spectrogram_opts;
        apply_log_ := apply_log spectrogram_opts;
        use_log_raw_energy_ := use_log_raw_energy spectrogram_opts;
        padding_length_ := padding_length;
        splitter := fs;
        fft_computer := FFTComputer_new ext padding_length;
        realfft_cache_ := cache |}.

Definition SpectrogramComputer_PaddingLength (c : SpectrogramComputer) : Z :=
  padding_length_ c.

Definition SpectrogramComputer_FeatureDim (c : SpectrogramComputer) : Z :=
  Int32.add (Int32.quot (padding_length_ c) 2) 1.

Definition SpectrogramComputer_NumFrames (c : SpectrogramComputer)
    (num_samps : Z) : result (Z * bool) :=
  FrameSplitter_NumFrames (splitter c) num_samps.

Definition set_splitter (fs : FrameSplitter) (c : SpectrogramComputer)
  : SpectrogramComputer :=
  {| apply_pow_ := apply_pow_ c;
     apply_log_ := apply_log_ c;
     use_log_raw_energy_ := use_log_raw_energy_ c;
     padding_length_ := padding_length_ c;
     splitter := fs;
     fft_computer := fft_computer c;
     realfft_cache_ := realfft_cache_ c |}.

Definition SpectrogramComputer_Reset (c : SpectrogramComputer)
  : SpectrogramComputer :=
  set_splitter (FrameSplitter_Reset (splitter c)) c.

(** *** FbankComputer *)

Record FbankComputer : Type := {
  spectrum_cache_ : list Float32;
  num_bins_ : Z;
  lower_bound_ : Z;
  upper_bound_ : Z;
  fbank_apply_log_ : bool;              (* FbankComputer::apply_log_ *)
  mel_coeff_ : list (list Float32);
  spectrogram_computer_ : SpectrogramComputer
}.

(** [FbankComputer::FbankComputer].  The member [spectrogram_computer_]
    is built by the initialiser list, before the body runs.  The
    comparison [upper_bound > 0.0] converts the [Int32] exactly and is
    the comparison of integers. *)
Definition FbankComputer_new (fbank_opts : FbankOpts) : result FbankComputer :=
  sc <- SpectrogramComputer_new (spectrogram_opts fbank_opts) ;;
  FbankOpts_Check fbank_opts ;;;
  let spectrogram_opts := spectrogram_opts fbank_opts in
  ASSERT (negb (apply_log spectrogram_opts)
          && negb (use_log_raw_energy spectrogram_opts)) ;;;
  let center_freq := Int32.shr1 (sample_rate (frame_opts spectrogram_opts)) in
  cache <- new_Float32 (SpectrogramComputer_FeatureDim sc) ;;
  let upper :=
    if 0 <? upper_bound fbank_opts then upper_bound fbank_opts
    else Int32.add center_freq (upper_bound fbank_opts) in
  mel <- external
           (ComputeMelFilters ext (SpectrogramComputer_FeatureDim sc)
              (num_mel_bins fbank_opts) center_freq (lower_bound fbank_opts)
              upper) ;;
  Ok {| spectrum_cache_ := cache;
        num_bins_ := num_mel_bins fbank_opts;
        lower_bound_ := lower_bound fbank_opts;
        upper_bound_ := upper;
        fbank_apply_log_ := fbank_apply_log fbank_opts;
        mel_coeff_ := mel;
        spectrogram_computer_ := sc |}.

Definition FbankComputer_FeatureDim (c : FbankComputer) : Z := num_bins_ c.

Definition FbankComputer_NumFrames (c : FbankComputer) (num_samps : Z)
  : result (Z * bool) :=
  SpectrogramComputer_NumFrames (spectrogram_computer_ c) num_samps.

Definition set_spectrogram_computer (sc : SpectrogramComputer)
    (c : FbankComputer) : FbankComputer :=
  {| spectrum_cache_ := spectrum_cache_ c;
     num_bins_ := num_bins_ c;
     lower_bound_ := lower_bound_ c;
     upper_bound_ := upper_bound_ c;
     fbank_apply_log_ := fbank_apply_log_ c;
     mel_coeff_ := mel_coeff_ c;
     spectrogram_computer_ := sc |}.

Definition FbankComputer_Reset (c : FbankComputer) : FbankComputer :=
  set_spectrogram_computer
    (SpectrogramComputer_Reset (spectrogram_computer_ c)) c.

(** *** MfccComputer *)

Record MfccComputer : Type := {
  num_ceps_ : Z;
  use_energy_ : bool;
  cepstral_lifter_ : Float32;
  lifter_coeffs_ : list Float32;
  dct_matrix_ : list Float32;
  mel_energy_cache_ : list Float32;
  fbank_computer : FbankComputer
}.

(** The value stored in [lifter_coeffs_[i]]:
    [0.5 * cepstral_lifter_ * sin(PI * i / cepstral_lifter_) + 1.0],
    evaluated in double precision ([0.5] and [1.0] are double literals,
    [PI] is taken to be a double constant) and stored as a [Float32]. *)
Definition lifter_coeff (cepstral_lifter : Float32) (i : Z) : Float32 :=
  to_f32
    (0.5 * cepstral_lifter
       * sin ext (PI ext * double_of_Int32 i / cepstral_lifter) + 1)%float.

(** [MfccComputer::MfccComputer].  The member [fbank_computer] is built
    by the initialiser list, before the body runs. *)
Definition MfccComputer_new (mfcc_opts : MfccOpts) : result MfccComputer :=
  fb <- FbankComputer_new (fbank_opts mfcc_opts) ;;
  MfccOpts_Check mfcc_opts ;;;
  new_Float32 (num_ceps mfcc_opts) ;;;
  let lifter :=
    map (lifter_coeff (cepstral_lifter mfcc_opts))
        (indices (num_ceps mfcc_opts)) in
  ASSERT (apply_pow (spectrogram_opts (fbank_opts mfcc_opts))
          && fbank_apply_log (fbank_opts mfcc_opts)) ;;;
  let num_mel_bins := FbankComputer_FeatureDim fb in
  new_Float32 (Int32.mul (num_ceps mfcc_opts) num_mel_bins) ;;;
  let dct := ComputeDctMatrix ext (num_ceps mfcc_opts) num_mel_bins in
  cache <- new_Float32 num_mel_bins ;;
  Ok {| num_ceps_ := num_ceps mfcc_opts;
        use_energy_ := use_energy mfcc_opts;
        cepstral_lifter_ := cepstral_lifter mfcc_opts;
        lifter_coeffs_ := lifter;
        dct_matrix_ := dct;
        mel_energy_cache_ := cache;
        fbank_computer := fb |}.

Definition MfccComputer_FeatureDim (c : MfccComputer) : Z := num_ceps_ c.

Definition MfccComputer_NumFrames (c : MfccComputer) (num_samps : Z)
  : result (Z * bool) :=
  FbankComputer_NumFrames (fbank_computer c) num_samps.

Definition set_fbank_computer (fb : FbankComputer) (c : MfccComputer)
  : MfccComputer :=
  {| num_ceps_ := num_ceps_ c;
     use_energy_ := use_energy_ c;
     cepstral_lifter_ := cepstral_lifter_ c;
     lifter_coeffs_ := lifter_coeffs_ c;
     dct_matrix_ := dct_matrix_ c;
     mel_energy_cache_ := mel_energy_cache_ c;
     fbank_computer := fb |}.

Definition MfccComputer_Reset (c : MfccComputer) : MfccComputer :=
  set_fbank_computer (FbankComputer_Reset (fbank_computer c)) c.

(** *** Calls on a computer during its lifetime *)

(** Modelled from the spec: [ComputeFrame] of the three computers,
    defined in [signal.cc].  By the specification a call "mutates shared
    scratch state" (the FFT, spectrum and mel-energy scratch buffers) and
    the online framing state, while the configuration and the derived
    tables are "immutable after construction".  A [CallComputeFrame]
    carries what the call leaves in the splitter and in the three scratch
    buffers. *)
Inductive call : Type :=
| CallComputeFrame (fs : FrameSplitter)
    (realfft spectrum mel_energy : list Float32)
| CallFeatureDim
| CallNumFrames (num_samps : Z)
| CallReset.

Definition SpectrogramComputer_step (c : SpectrogramComputer) (k : call)
  : SpectrogramComputer :=
  match k with
  | CallComputeFrame fs realfft _ _ =>
      {| apply_pow_ := apply_pow_ c;
         apply_log_ := apply_log_ c;
         use_log_raw_energy_ := use_log_raw_energy_ c;
         padding_length_ := padding_length_ c;
         splitter := fs;
         fft_computer := fft_computer c;
         realfft_cache_ := realfft |}
  | CallReset => SpectrogramComputer_Reset c
  | CallFeatureDim | CallNumFrames _ => c
  end.

Definition FbankComputer_step (c : FbankComputer) (k : call) : FbankComputer :=
  match k with
  | CallComputeFrame _ _ spectrum _ =>
      {| spectrum_cache_ := spectrum;
         num_bins_ := num_bins_ c;
         lower_bound_ := lower_bound_ c;
         upper_bound_ := upper_bound_ c;
         fbank_apply_log_ := fbank_apply_log_ c;
         mel_coeff_ := mel_coeff_ c;
         spectrogram_computer_ :=
           SpectrogramComputer_step (spectrogram_computer_ c) k |}
  | CallReset => FbankComputer_Reset c
  | CallFeatureDim | CallNumFrames _ => c
  end.

Definition MfccComputer_step (c : MfccComputer) (k : call) : MfccComputer :=
  match k with
  | CallComputeFrame _ _ _ mel_energy =>
      {| num_ceps_ := num_ceps_ c;
         use_energy_ := use_energy_ c;
         cepstral_lifter_ := cepstral_lifter_ c;
         lifter_coeffs_ := lifter_coeffs_ c;
         dct_matrix_ := dct_matrix_ c;
         mel_energy_cache_ := mel_energy;
         fbank_computer := FbankComputer_step (fbank_computer c) k |}
  | CallReset => MfccComputer_Reset c
  | CallFeatureDim | CallNumFrames _ => c
  end.

End Computers.

Arguments apply_pow_ {ext} _.
Arguments apply_log_ {ext} _.
Arguments use_log_raw_energy_ {ext} _.
Arguments padding_length_ {ext} _.
Arguments splitter {ext} _.
Arguments realfft_cache_ {ext} _.
Arguments spectrum_cache_ {ext} _.
Arguments num_bins_ {ext} _.
Arguments lower_bound_ {ext} _.
Arguments upper_bound_ {ext} _.
Arguments fbank_apply_log_ {ext} _.
Arguments mel_coeff_ {ext} _.
Arguments spectrogram_computer_ {ext} _.
Arguments num_ceps_ {ext} _.
Arguments use_energy_ {ext} _.
Arguments cepstral_lifter_ {ext} _.
Arguments lifter_coeffs_ {ext} _.
Arguments dct_matrix_ {ext} _.
Arguments mel_energy_cache_ {ext} _.
Arguments fbank_computer {ext} _.
Arguments SpectrogramComputer_FeatureDim {ext} _.
Arguments SpectrogramComputer_PaddingLength {ext} _.
Arguments FbankComputer_FeatureDim {ext} _.
Arguments MfccComputer_FeatureDim {ext} _.
Arguments SpectrogramComputer_step {ext} _ _.
Arguments FbankComputer_step {ext} _ _.
Arguments MfccComputer_step {ext} _ _.

(** ** A host environment, to run the embedding on concrete inputs

    These are stand-ins for the routines of the other translation units:
    an empty configuration file, flat windows and tables, a cubic
    approximation of the sine. *)
Module Host.

(** Modelled from the spec: [RoundUpToNearestPowerOfTwo] of
    [decoder/common.h], "the smallest power of two >= frame_length". *)
Definition round_up_pow2 (n : Z) : Z := 2 ^ Z.log2_up n.

Definition window_of_name (name : string) : option WindowType :=
  if String.eqb name "none" then Some kNone
  else if String.eqb name "rect" then Some kRect
  else if String.eqb name "hamm" then Some kHamm
  else if String.eqb name "hann" then Some kHann
  else None.

Definition flat_mel (num_fft_bins num_mel_bins center_freq low high : Z)
  : option (list (list Float32)) :=
  if low <? high then
    Some (repeat (repeat 0%float (Z.to_nat num_fft_bins))
                 (Z.to_nat num_mel_bins))
  else None.

Definition cubic_sin (x : float) : float := (x - x * x * x / 6)%float.

Definition env : Externals :=
  {| ConfigureParser := unit;
     AddOptions_Int32 := fun _ _ _ v => v;
     AddOptions_Float32 := fun _ _ _ v => v;
     AddOptions_Bool := fun _ _ _ v => v;
     AddOptions_string := fun _ _ _ v => v;
     StringToWindow := window_of_name;
     ComputeWindow := fun n _ => repeat 1%float (Z.to_nat n);
     ComputeMelFilters := flat_mel;
     ComputeDctMatrix := fun rows cols => repeat 0%float (Z.to_nat (rows * cols));
     RoundUpToNearestPowerOfTwo := round_up_pow2;
     PI := 0x1.921fb54442d18p+1%float;
     FFTComputer := Z;
     FFTComputer_new := fun n => n;
     sin := cubic_sin |}.

(** The splitter that [FrameSplitter(FrameOpts())] builds in this
    environment. *)
Definition default_splitter : FrameSplitter :=
  {| frame_opts_ := FrameOpts_default;
     window_ := Some (repeat 1%float 400);
     online_use_ := repeat 0%float 800;
     prev_discard_size_ := 0 |}.

End Host.

(** ** Notions used in the statements *)

(** A computation that does not stop on an [ASSERT]. *)
Definition no_assertion {A : Type} (r : result A) : Prop :=
  r <> Halt AssertionFailed.

(** The flags the constructors assert on and [Check] does not look at. *)
Definition raw_power_flags (o : FbankOpts) : bool :=
  negb (apply_log (spectrogram_opts o))
  && negb (use_log_raw_energy (spectrogram_opts o)).

Definition log_mel_flags (o : MfccOpts) : bool :=
  apply_pow (spectrogram_opts (fbank_opts o))
  && fbank_apply_log (fbank_opts o).

(** A value that is an infinity or a NaN. *)
Definition nonfinite (x : float) : bool :=
  match Prim2SF x with
  | S754_nan | S754_infinity _ => true
  | S754_zero _ | S754_finite _ _ _ => false
  end.

(** A value [x] with [0 < x < +infinity]. *)
Definition positive_finite (x : float) : bool :=
  ((0 <? x) && (x <? infinity))%float.

(** [o] with another cepstral lifter parameter. *)
Definition with_cepstral_lifter (cl : Float32) (o : MfccOpts) : MfccOpts :=
  {| fbank_opts := fbank_opts o;
     num_ceps := num_ceps o;
     use_energy := use_energy o;
     cepstral_lifter := cl |}.

(** The [len] samples found in [mem] at row [t] of a buffer with row
    stride [stride]. *)
Definition frame_at (mem : list Float32) (stride t len : Z) : list Float32 :=
  firstn (Z.to_nat len) (skipn (Z.to_nat (stride * t)) mem).

(** The value a call of [Frame] returns, when it returns. *)
Definition returned_count (r : result (Z * FrameSplitter * list Float32))
  : option Z :=
  match r with
  | Ok (n, _, _) => Some n
  | Halt _ => None
  end.

(** The samples 0, 1, ..., n - 1 as a test signal. *)
Definition ramp (n : Z) : list Float32 := map double_of_Int32 (indices n).

(** [FrameOpts] with the default window, pre-emphasis and DC settings. *)
Definition FrameOpts_sized (length shift frequency : Z) : FrameOpts :=
  FrameOpts_new length shift frequency (preemph_coeff FrameOpts_default)
    kHamm true.

(** ** Further notions *)

(** The host environment with a configuration file that names the
    Hamming window and binds nothing else. *)
Definition hamm_file_env : Externals :=
  {| ConfigureParser := unit;
     AddOptions_Int32 := fun _ _ _ v => v;
     AddOptions_Float32 := fun _ _ _ v => v;
     AddOptions_Bool := fun _ _ _ v => v;
     AddOptions_string := fun _ _ _ _ => "hamm"%string;
     StringToWindow := Host.window_of_name;
     ComputeWindow := ComputeWindow Host.env;
     ComputeMelFilters := Host.flat_mel;
     ComputeDctMatrix := ComputeDctMatrix Host.env;
     RoundUpToNearestPowerOfTwo := Host.round_up_pow2;
     PI := PI Host.env;
     FFTComputer := Z;
     FFTComputer_new := fun n => n;
     sin := Host.cubic_sin |}.

(** A value that is a zero, an infinity or a NaN. *)
Definition zero_or_nonfinite (x : float) : bool :=
  match Prim2SF x with
  | S754_finite _ _ _ => false
  | S754_zero _ | S754_infinity _ | S754_nan => true
  end.

(** A value that is [+0] or [-0]. *)
Definition float_is_zero (x : float) : bool :=
  match Prim2SF x with
  | S754_zero _ => true
  | _ => false
  end.

(** A small splitter for examples: frame length 4, frame shift 2, no
    window, nothing carried. *)
Definition small_splitter : FrameSplitter :=
  {| frame_opts_ := FrameOpts_new 4 2 8000 0%float kNone false;
     window_ := None;
     online_use_ := repeat 0%float 8;
     prev_discard_size_ := 0 |}.

(** The frame splitter at the bottom of an [MfccComputer]. *)
Definition MfccComputer_splitter {ext : Externals} (c : MfccComputer ext)
  : FrameSplitter :=
  splitter (spectrogram_computer_ (fbank_computer c)).

(** * Properties *)

(** ** Results and assertions *)

Lemma ASSERT_Ok (b : bool) : ASSERT b = Ok tt <-> b = true.
Proof. destruct b; simpl; split; intro H; try reflexivity; discriminate. Qed.

Lemma ASSERT_cases (b : bool) :
  ASSERT b = Ok tt \/ ASSERT b = Halt AssertionFailed.
Proof. destruct b; [left | right]; reflexivity. Qed.

Lemma bind_Ok {A B : Type} (m : result A) (k : A -> result B) (b : B) :
  bind m k = Ok b <-> exists a, m = Ok a /\ k a = Ok b.
Proof.
  destruct m as [a | f]; simpl; split.
  - intro H. exists a. split; [reflexivity | exact H].
  - intros [a' [Ha Hk]]. injection Ha as ->. exact Hk.
  - discriminate.
  - intros [a' [Ha _]]. discriminate.
Qed.

Lemma no_assertion_Ok {A : Type} (a : A) : no_assertion (Ok a).
Proof. discriminate. Qed.

Lemma no_assertion_bind {A B : Type} (m : result A) (k : A -> result B) :
  no_assertion m ->
  (forall a, m = Ok a -> no_assertion (k a)) ->
  no_assertion (bind m k).
Proof.
  intros Hm Hk. destruct m as [a | f]; simpl.
  - apply Hk. reflexivity.
  - intro H. apply Hm. injection H as ->. reflexivity.
Qed.

Lemma no_assertion_new_Float32 (n : Z) : no_assertion (new_Float32 n).
Proof. unfold new_Float32. destruct (n <? 0); discriminate. Qed.

Lemma no_assertion_external {A : Type} (o : option A) :
  no_assertion (external o).
Proof. destruct o; discriminate. Qed.

Lemma new_Float32_Ok (n : Z) (l : list Float32) :
  new_Float32 n = Ok l -> 0 <= n /\ l = repeat 0%float (Z.to_nat n).
Proof.
  unfold new_Float32. destruct (Z.ltb_spec n 0) as [Hn | Hn]; intro H.
  - discriminate.
  - injection H as <-. split; [assumption | reflexivity].
Qed.

Create HintDb construction.

#[local] Hint Resolve no_assertion_Ok no_assertion_new_Float32
  no_assertion_external : construction.

(** ** What the validation checks *)

Lemma FrameOpts_Check_Ok (o : FrameOpts) :
  FrameOpts_Check o = Ok tt <->
  sample_rate o <> 0 /\ frame_shift o <= frame_length o /\
  (0 <=? preemph_coeff o)%float = true /\ (preemph_coeff o <? 1)%float = true.
Proof.
  unfold FrameOpts_Check. rewrite bind_Ok. split.
  - intros [[] [H1 H2]].
    apply ASSERT_Ok in H1. apply ASSERT_Ok in H2.
    apply andb_true_iff in H1 as [Hr Hs]. apply andb_true_iff in H2 as [Hlo Hhi].
    apply negb_true_iff, Z.eqb_neq in Hr. apply Z.leb_le in Hs. auto.
  - intros (Hr & Hs & Hlo & Hhi). exists tt.
    split; apply ASSERT_Ok; apply andb_true_iff; split; auto.
    + apply negb_true_iff, Z.eqb_neq. exact Hr.
    + apply Z.leb_le. exact Hs.
Qed.

Lemma FbankOpts_Check_Ok (o : FbankOpts) :
  FbankOpts_Check o = Ok tt <->
  SpectrogramOpts_Check (spectrogram_opts o) = Ok tt /\
  3 <= num_mel_bins o /\ 0 <= lower_bound o.
Proof.
  unfold FbankOpts_Check. rewrite bind_Ok. split.
  - intros [[] [H1 H2]]. apply bind_Ok in H2 as [[] [H2 H3]].
    apply ASSERT_Ok, Z.leb_le in H2. apply ASSERT_Ok, Z.leb_le in H3. auto.
  - intros (H1 & H2 & H3). exists tt. split; [exact H1 |].
    apply bind_Ok. exists tt. split; apply ASSERT_Ok, Z.leb_le; assumption.
Qed.

Lemma MfccOpts_Check_Ok (o : MfccOpts) :
  MfccOpts_Check o = Ok tt <->
  FbankOpts_Check (fbank_opts o) = Ok tt /\ 1 <= num_ceps o.
Proof.
  unfold MfccOpts_Check. rewrite bind_Ok. split.
  - intros [[] [H1 H2]]. apply ASSERT_Ok, Z.leb_le in H2. auto.
  - intros [H1 H2]. exists tt. split; [exact H1 |].
    apply ASSERT_Ok, Z.leb_le. exact H2.
Qed.

Section Construction.

Variable ext : Externals.

Lemma FrameSplitter_new_no_assertion (o : FrameOpts) :
  FrameOpts_Check o = Ok tt -> no_assertion (FrameSplitter_new ext o).
Proof.
  intro H. unfold FrameSplitter_new. rewrite H. simpl.
  apply no_assertion_bind; auto with construction. intros online _.
  apply no_assertion_bind; auto with construction.
  destruct (WindowType_eqb (window_type o) kNone); auto with construction.
  apply no_assertion_bind; auto with construction.
Qed.

Lemma SpectrogramComputer_new_no_assertion (o : SpectrogramOpts) :
  SpectrogramOpts_Check o = Ok tt ->
  no_assertion (SpectrogramComputer_new ext o).
Proof.
  intro H. unfold SpectrogramComputer_new.
  apply no_assertion_bind.
  - apply FrameSplitter_new_no_assertion. exact H.
  - intros fs _. apply no_assertion_bind; auto with construction.
Qed.

Lemma FbankComputer_new_no_assertion (o : FbankOpts) :
  FbankOpts_Check o = Ok tt -> raw_power_flags o = true ->
  no_assertion (FbankComputer_new ext o).
Proof.
  intros H Hf. unfold FbankComputer_new.
  apply no_assertion_bind.
  - apply SpectrogramComputer_new_no_assertion.
    apply FbankOpts_Check_Ok in H. tauto.
  - intros sc _. rewrite H. simpl.
    unfold raw_power_flags in Hf. rewrite Hf. simpl.
    apply no_assertion_bind; auto with construction. intros cache _.
    apply no_assertion_bind; auto with construction.
Qed.

Lemma MfccComputer_new_no_assertion (o : MfccOpts) :
  MfccOpts_Check o = Ok tt -> raw_power_flags (fbank_opts o) = true ->
  log_mel_flags o = true ->
  no_assertion (MfccComputer_new ext o).
Proof.
  intros H Hf Hm. unfold MfccComputer_new.
  apply no_assertion_bind.
  - apply FbankComputer_new_no_assertion; [| exact Hf].
    apply MfccOpts_Check_Ok in H. tauto.
  - intros fb _. rewrite H. simpl.
    apply no_assertion_bind; auto with construction. intros _ _.
    unfold log_mel_flags in Hm. rewrite Hm. simpl.
    apply no_assertion_bind; auto with construction. intros _ _.
    apply no_assertion_bind; auto with construction.
Qed.

(** A constructed [FbankComputer] comes from options whose spectrogram
    flags are off, and its inner computer has them off. *)
Lemma FbankComputer_new_flags (o : FbankOpts) (c : FbankComputer ext) :
  FbankComputer_new ext o = Ok c ->
  raw_power_flags o = true /\
  apply_log_ (spectrogram_computer_ c) = false /\
  use_log_raw_energy_ (spectrogram_computer_ c) = false.
Proof.
  unfold FbankComputer_new. intro H.
  apply bind_Ok in H as (sc & Hsc & H).
  apply bind_Ok in H as ([] & _ & H).
  apply bind_Ok in H as ([] & Hflags & H).
  apply bind_Ok in H as (cache & _ & H).
  apply bind_Ok in H as (mel & _ & H).
  injection H as <-. simpl.
  apply ASSERT_Ok in Hflags. split; [exact Hflags |].
  unfold SpectrogramComputer_new in Hsc.
  apply bind_Ok in Hsc as (fs & _ & Hsc).
  apply bind_Ok in Hsc as (rc & _ & Hsc).
  injection Hsc as <-. simpl.
  apply andb_true_iff in Hflags as [H1 H2].
  apply negb_true_iff in H1, H2. auto.
Qed.

End Construction.

(** ** Configuration objects and construction *)

(** The two sibling paths of [FbankOpts(const SpectrogramOpts &)] clear
    the two flags. *)
Lemma FbankOpts_new_raw_power (num_bins low high : Z) (power log : bool) :
  raw_power_flags (FbankOpts_new num_bins low high power log) = true.
Proof. reflexivity. Qed.

Lemma FbankOpts_ParseConfigure_raw_power (ext : Externals)
    (parser : ConfigureParser ext) (o o' : FbankOpts) :
  FbankOpts_ParseConfigure ext parser o = Ok o' ->
  raw_power_flags o' = true.
Proof.
  unfold FbankOpts_ParseConfigure. intro H.
  apply bind_Ok in H as (s & _ & H). injection H as <-. reflexivity.
Qed.

(** C1, as amended.  A configuration on which [Check] succeeds is built
    into its splitter or computer without any [ASSERT] firing, provided
    that, for an [FbankOpts], the embedded spectrogram flags [apply_log]
    and [use_log_raw_energy] are off and that, for an [MfccOpts], in
    addition [apply_pow] and the filter bank's [apply_log] are on: the
    constructors assert these flags and [Check] does not look at them. *)
Theorem validated_construction (ext : Externals) :
  (forall o, FrameOpts_Check o = Ok tt ->
             FrameSplitter_new ext o <> Halt AssertionFailed) /\
  (forall o, SpectrogramOpts_Check o = Ok tt ->
             SpectrogramComputer_new ext o <> Halt AssertionFailed) /\
  (forall o, FbankOpts_Check o = Ok tt ->
             raw_power_flags o = true ->
             FbankComputer_new ext o <> Halt AssertionFailed) /\
  (forall o, MfccOpts_Check o = Ok tt ->
             raw_power_flags (fbank_opts o) = true ->
             log_mel_flags o = true ->
             MfccComputer_new ext o <> Halt AssertionFailed).
Proof.
  repeat split; intros o.
  - apply FrameSplitter_new_no_assertion.
  - apply SpectrogramComputer_new_no_assertion.
  - apply FbankComputer_new_no_assertion.
  - apply MfccComputer_new_no_assertion.
Qed.

Lemma validated_construction_witness :
  (FrameOpts_Check FrameOpts_default = Ok tt /\
   FrameSplitter_new Host.env FrameOpts_default <> Halt AssertionFailed) /\
  (FbankOpts_Check FbankOpts_default = Ok tt /\
   raw_power_flags FbankOpts_default = true /\
   FbankComputer_new Host.env FbankOpts_default <> Halt AssertionFailed) /\
  (MfccOpts_Check MfccOpts_default = Ok tt /\
   raw_power_flags (fbank_opts MfccOpts_default) = true /\
   log_mel_flags MfccOpts_default = true /\
   MfccComputer_new Host.env MfccOpts_default <> Halt AssertionFailed).
Proof.
  destruct (validated_construction Host.env) as (Hf & _ & Hb & Hm).
  repeat split; try reflexivity.
  - apply Hf. reflexivity.
  - apply Hb; reflexivity.
  - apply Hm; reflexivity.
Defined.

(** C1, as stated, fails.  The option classes have public members; with
    [spectrogram_opts.apply_log] set on a default [FbankOpts], or with
    [fbank_opts.apply_log] cleared on a default [MfccOpts], [Check] still
    succeeds and the constructor stops on its [ASSERT].  The copying
    constructors [FbankOpts(const SpectrogramOpts &)] and
    [MfccOpts(const FbankOpts)] give such configurations too. *)
Lemma Check_passes_constructor_asserts :
  (FbankOpts_Check
     (set_spectrogram_opts
        (set_apply_log true (spectrogram_opts FbankOpts_default))
        FbankOpts_default) = Ok tt /\
   FbankComputer_new Host.env
     (set_spectrogram_opts
        (set_apply_log true (spectrogram_opts FbankOpts_default))
        FbankOpts_default) = Halt AssertionFailed) /\
  (MfccOpts_Check
     (set_fbank_opts
        (set_fbank_apply_log false (fbank_opts MfccOpts_default))
        MfccOpts_default) = Ok tt /\
   MfccComputer_new Host.env
     (set_fbank_opts
        (set_fbank_apply_log false (fbank_opts MfccOpts_default))
        MfccOpts_default) = Halt AssertionFailed) /\
  (FbankOpts_Check (FbankOpts_of_SpectrogramOpts SpectrogramOpts_default)
     = Ok tt /\
   FbankComputer_new Host.env
     (FbankOpts_of_SpectrogramOpts SpectrogramOpts_default)
     = Halt AssertionFailed) /\
  (MfccOpts_Check (MfccOpts_of_FbankOpts (FbankOpts_new 23 20 0 true false))
     = Ok tt /\
   MfccComputer_new Host.env
     (MfccOpts_of_FbankOpts (FbankOpts_new 23 20 0 true false))
     = Halt AssertionFailed).
Proof. repeat split; vm_compute; reflexivity. Qed.

(** C4, at the failing input.  [FbankOpts(const SpectrogramOpts &)]
    copies its argument: built from a default [SpectrogramOpts], or from
    [SpectrogramOpts(FrameOpts())], the configuration keeps [apply_log]
    and [use_log_raw_energy] on. *)
Theorem FbankOpts_of_SpectrogramOpts_keeps_flags :
  apply_log (spectrogram_opts
               (FbankOpts_of_SpectrogramOpts SpectrogramOpts_default)) = true /\
  use_log_raw_energy
    (spectrogram_opts
       (FbankOpts_of_SpectrogramOpts SpectrogramOpts_default)) = true /\
  raw_power_flags
    (FbankOpts_of_SpectrogramOpts
       (SpectrogramOpts_of_FrameOpts FrameOpts_default)) = false.
Proof. repeat split. Qed.

(** C5, at the failing inputs.  [FrameOpts::Check] accepts a zero and a
    negative frame shift and a negative sample rate; with the zero shift
    the first [NumFrames] divides by zero. *)
Theorem FrameOpts_Check_accepts_bad_ranges :
  FrameOpts_Check (FrameOpts_sized 400 0 16000) = Ok tt /\
  FrameOpts_Check (FrameOpts_sized 400 (-160) 16000) = Ok tt /\
  FrameOpts_Check (FrameOpts_sized 400 160 (-16000)) = Ok tt /\
  (fs <- FrameSplitter_new Host.env (FrameOpts_sized 400 0 16000) ;;
   FrameSplitter_NumFrames fs 1000) = Halt DivisionByZero.
Proof. repeat split; vm_compute; reflexivity. Qed.

(** ** The frame splitter *)

Lemma wrap_in_range (z : Z) : Int32.in_range z -> Int32.wrap z = z.
Proof.
  unfold Int32.in_range, Int32.min_signed, Int32.max_signed, Int32.wrap.
  intro H. rewrite Z.mod_small; lia.
Qed.

Lemma wrap_range (z : Z) : Int32.in_range (Int32.wrap z).
Proof.
  unfold Int32.in_range, Int32.min_signed, Int32.max_signed, Int32.wrap.
  pose proof (Z.mod_pos_bound (z + 2 ^ 31) (2 ^ 32) ltac:(lia)). lia.
Qed.

(** Where at least one frame is available, [NumFrames] is the count of
    complete frames and gives no warning. *)
Lemma NumFrames_available (fs : FrameSplitter) (num_samps : Z) :
  0 < frame_shift (frame_opts_ fs) ->
  frame_shift (frame_opts_ fs) <= frame_length (frame_opts_ fs) ->
  0 <= num_samps -> 0 <= prev_discard_size_ fs ->
  num_samps + prev_discard_size_ fs <= Int32.max_signed ->
  frame_length (frame_opts_ fs) <= num_samps + prev_discard_size_ fs ->
  FrameSplitter_NumFrames fs num_samps =
  Ok ((num_samps + prev_discard_size_ fs - frame_length (frame_opts_ fs))
        / frame_shift (frame_opts_ fs) + 1, false).
Proof.
  intros HS HL Hn Hp Hmax Have. unfold FrameSplitter_NumFrames.
  set (S := frame_shift (frame_opts_ fs)) in *.
  set (L := frame_length (frame_opts_ fs)) in *.
  set (p := prev_discard_size_ fs) in *.
  unfold Int32.max_signed in Hmax.
  destruct (Z.eqb_spec S 0) as [E | _]; [lia |].
  assert (Hq : 0 <= (num_samps + p - L) / S <= num_samps + p - L).
  { split; [apply Z.div_pos; lia |].
    apply Z.div_le_upper_bound; [lia |]. nia. }
  unfold Int32.add, Int32.sub, Int32.quot.
  rewrite (wrap_in_range (num_samps + p))
    by (unfold Int32.in_range, Int32.min_signed, Int32.max_signed; lia).
  rewrite (wrap_in_range (num_samps + p - L))
    by (unfold Int32.in_range, Int32.min_signed, Int32.max_signed; lia).
  rewrite Z.quot_div_nonneg by lia.
  rewrite (wrap_in_range ((num_samps + p - L) / S))
    by (unfold Int32.in_range, Int32.min_signed, Int32.max_signed; lia).
  rewrite wrap_in_range
    by (unfold Int32.in_range, Int32.min_signed, Int32.max_signed; lia).
  destruct (Z.eqb_spec ((num_samps + p - L) / S + 1) 0); [lia | reflexivity].
Qed.

(** With no frame to extract, [Frame] never calls [FrameForIndex]: the
    splitter and the destination are as before the call. *)
Lemma Frame_without_frames (ffi : FrameForIndex_t) (signal : list Float32)
    (num_samps stride : Z) (fs : FrameSplitter) (frames : list Float32)
    (n : Z) (w : bool) :
  frame_length (frame_opts_ fs) <= stride ->
  FrameSplitter_NumFrames fs num_samps = Ok (n, w) -> n <= 0 ->
  FrameSplitter_Frame ffi signal num_samps stride fs frames
  = Ok (n, fs, frames).
Proof.
  intros Hs Hn Hle. unfold FrameSplitter_Frame.
  apply Z.leb_le in Hs. rewrite Hs, Hn. simpl.
  replace (Z.to_nat n) with O by lia. reflexivity.
Qed.

Lemma default_splitter_built :
  FrameSplitter_new Host.env FrameOpts_default = Ok Host.default_splitter.
Proof. vm_compute. reflexivity. Qed.

(** Where the samples are short of a frame by less than one shift, the
    truncated quotient is 0: [NumFrames] returns 1 and gives no warning. *)
Lemma NumFrames_just_short (fs : FrameSplitter) (num_samps : Z) :
  0 <= num_samps -> 0 <= prev_discard_size_ fs ->
  frame_length (frame_opts_ fs) <= Int32.max_signed ->
  frame_length (frame_opts_ fs) - frame_shift (frame_opts_ fs)
  < num_samps + prev_discard_size_ fs < frame_length (frame_opts_ fs) ->
  FrameSplitter_NumFrames fs num_samps = Ok (1, false).
Proof.
  intros Hn Hp Hmax Hshort. unfold FrameSplitter_NumFrames.
  set (S := frame_shift (frame_opts_ fs)) in *.
  set (L := frame_length (frame_opts_ fs)) in *.
  set (p := prev_discard_size_ fs) in *.
  unfold Int32.max_signed in Hmax.
  destruct (Z.eqb_spec S 0) as [E | _]; [lia |].
  unfold Int32.add, Int32.sub, Int32.quot.
  rewrite (wrap_in_range (num_samps + p))
    by (unfold Int32.in_range, Int32.min_signed, Int32.max_signed; lia).
  rewrite (wrap_in_range (num_samps + p - L))
    by (unfold Int32.in_range, Int32.min_signed, Int32.max_signed; lia).
  replace (num_samps + p - L) with (- (L - num_samps - p)) by lia.
  rewrite Z.quot_opp_l, Z.quot_small by lia.
  reflexivity.
Qed.

(** In that case [Frame] calls [FrameForIndex] once, for frame 0 at the
    start of the destination, and returns 1. *)
Lemma Frame_just_short (ffi : FrameForIndex_t) (signal : list Float32)
    (num_samps stride : Z) (fs : FrameSplitter) (frames : list Float32) :
  0 <= num_samps -> 0 <= prev_discard_size_ fs ->
  frame_length (frame_opts_ fs) <= Int32.max_signed ->
  frame_length (frame_opts_ fs) - frame_shift (frame_opts_ fs)
  < num_samps + prev_discard_size_ fs < frame_length (frame_opts_ fs) ->
  frame_length (frame_opts_ fs) <= stride ->
  FrameSplitter_Frame ffi signal num_samps stride fs frames
  = (r <- ffi fs signal num_samps 0 frames 0 ;; Ok (1, fst r, snd r)).
Proof.
  intros Hn Hp Hmax Hshort Hstride. unfold FrameSplitter_Frame.
  apply Z.leb_le in Hstride. rewrite Hstride.
  rewrite NumFrames_just_short by assumption.
  cbn [ASSERT bind fst snd]. change (Z.to_nat 1) with 1%nat.
  cbn [Frame_loop].
  replace (Int32.mul stride 0) with 0
    by (unfold Int32.mul; rewrite Z.mul_0_r; reflexivity).
  destruct (ffi fs signal num_samps 0 frames 0) as [[fs' frames'] | f];
    reflexivity.
Qed.

(** C3, at the failing inputs.  For a default splitter (frame length 400,
    shift 160, no carried tail) and 399 samples [NumFrames] returns 1
    without a warning, where the floor formula gives 0; for 0 samples it
    returns -1 without a warning, where the floor formula gives -2. *)
Theorem NumFrames_truncates_towards_zero :
  FrameSplitter_NumFrames Host.default_splitter 399 = Ok (1, false) /\
  (399 + 0 - 400) / 160 + 1 = 0 /\
  FrameSplitter_NumFrames Host.default_splitter 0 = Ok (-1, false) /\
  (0 + 0 - 400) / 160 + 1 = -2.
Proof. repeat split; vm_compute; reflexivity. Qed.

(** C10, at the failing input.  With 399 samples, no carried tail and a
    frame length of 400, [Frame] calls [FrameForIndex] for frame 0 on the
    destination and returns 1, whatever [FrameForIndex] does. *)
Theorem Frame_short_input_extracts_a_frame (ffi : FrameForIndex_t)
    (signal frames : list Float32) :
  FrameSplitter_Frame ffi signal 399 400 Host.default_splitter frames
  = (r <- ffi Host.default_splitter signal 399 0 frames 0 ;;
     Ok (1, fst r, snd r)).
Proof.
  apply Frame_just_short; vm_compute; try split; try reflexivity;
    discriminate.
Qed.

(** *** Copies into a buffer *)

Lemma write_at_length (mem : list Float32) (off : nat) (data : list Float32) :
  length (write_at mem off data) = length mem.
Proof.
  unfold write_at.
  rewrite length_firstn, !length_app, length_firstn, length_skipn. lia.
Qed.

Lemma write_at_fits (mem : list Float32) (off : nat) (data : list Float32) :
  (off + length data <= length mem)%nat ->
  write_at mem off data
  = firstn off mem ++ data ++ skipn (off + length data) mem.
Proof.
  intro H. unfold write_at. apply firstn_all2.
  rewrite !length_app, length_firstn, length_skipn. lia.
Qed.

Lemma write_at_read (mem : list Float32) (off : nat) (data : list Float32) :
  (off + length data <= length mem)%nat ->
  firstn (length data) (skipn off (write_at mem off data)) = data.
Proof.
  intro H. rewrite write_at_fits by exact H.
  rewrite skipn_app, length_firstn.
  replace (off - Nat.min off (length mem))%nat with O by lia.
  rewrite skipn_all2 by (rewrite length_firstn; lia).
  simpl. rewrite firstn_app, Nat.sub_diag, firstn_all. simpl.
  apply app_nil_r.
Qed.

Lemma write_at_read_before (mem : list Float32) (off : nat)
    (data : list Float32) (a k : nat) :
  (a + k <= off)%nat -> (off + length data <= length mem)%nat ->
  firstn k (skipn a (write_at mem off data)) = firstn k (skipn a mem).
Proof.
  intros Hb H. rewrite write_at_fits by exact H.
  rewrite !firstn_skipn_comm. f_equal.
  rewrite firstn_app, length_firstn.
  replace (a + k - Nat.min off (length mem))%nat with O by lia.
  simpl. rewrite app_nil_r, firstn_firstn. f_equal. lia.
Qed.

(** *** One call of [Frame] with the specified [FrameForIndex] *)

Section OnlineFraming.

Variable fs : FrameSplitter.
Variable signal : list Float32.
Variables num_samps stride : Z.

Let Len := frame_length (frame_opts_ fs).
Let Sh := frame_shift (frame_opts_ fs).
Let stream := stream_of fs signal num_samps.
Let n := (num_samps + prev_discard_size_ fs - Len) / Sh + 1.

Hypothesis shift_pos : 0 < Sh.
Hypothesis shift_le_length : Sh <= Len.
Hypothesis length_le_stride : Len <= stride.
Hypothesis samps_nonneg : 0 <= num_samps.
Hypothesis prev_nonneg : 0 <= prev_discard_size_ fs.
Hypothesis stream_length :
  Z.of_nat (length stream) = num_samps + prev_discard_size_ fs.
Hypothesis stream_max : num_samps + prev_discard_size_ fs <= Int32.max_signed.
Hypothesis available : Len <= num_samps + prev_discard_size_ fs.

Lemma spec_NumFrames : FrameSplitter_NumFrames fs num_samps = Ok (n, false).
Proof. apply NumFrames_available; assumption. Qed.

Lemma spec_count_pos : 1 <= n.
Proof.
  unfold n.
  pose proof (Z.div_pos (num_samps + prev_discard_size_ fs - Len) Sh).
  lia.
Qed.

Lemma spec_last_frame_fits :
  (n - 1) * Sh + Len <= num_samps + prev_discard_size_ fs.
Proof.
  unfold n.
  pose proof (Z.mul_div_le (num_samps + prev_discard_size_ fs - Len) Sh
                shift_pos).
  lia.
Qed.

Lemma spec_next_frame_does_not_fit :
  num_samps + prev_discard_size_ fs < n * Sh + Len.
Proof.
  unfold n.
  pose proof (Z.mod_pos_bound (num_samps + prev_discard_size_ fs - Len) Sh
                shift_pos).
  pose proof (Z.div_mod (num_samps + prev_discard_size_ fs - Len) Sh).
  lia.
Qed.

Lemma frame_of_length (u : Z) :
  0 <= u < n -> length (frame_of stream Len Sh u) = Z.to_nat Len.
Proof.
  intro Hu. unfold frame_of. rewrite length_firstn, length_skipn.
  pose proof spec_last_frame_fits. nia.
Qed.

Lemma spec_FrameForIndex (t : Z) (mem : list Float32) :
  0 <= t < n ->
  FrameForIndex_spec fs signal num_samps t mem (stride * t)
  = Ok (if t =? n - 1 then carry_tail fs stream n else fs,
        write_at mem (Z.to_nat (stride * t)) (frame_of stream Len Sh t)).
Proof.
  intro Ht. unfold FrameForIndex_spec. rewrite spec_NumFrames. simpl.
  fold stream Len Sh. destruct (t =? n - 1); reflexivity.
Qed.

Lemma spec_write_fits (t : Z) (mem : list Float32) :
  0 <= t < n -> stride * n <= Z.of_nat (length mem) ->
  (Z.to_nat (stride * t) + length (frame_of stream Len Sh t)
   <= length mem)%nat.
Proof.
  intros Ht Hmem. rewrite frame_of_length by exact Ht.
  assert (stride * t + Len <= stride * n) by nia.
  assert (0 <= stride * t) by nia. lia.
Qed.

Lemma spec_write_read (t : Z) (mem : list Float32) :
  0 <= t < n -> stride * n <= Z.of_nat (length mem) ->
  frame_at (write_at mem (Z.to_nat (stride * t)) (frame_of stream Len Sh t))
    stride t Len
  = frame_of stream Len Sh t.
Proof.
  intros Ht Hmem. unfold frame_at.
  rewrite <- (frame_of_length t Ht) at 1.
  apply write_at_read, spec_write_fits; assumption.
Qed.

Lemma spec_write_keeps (t u : Z) (mem : list Float32) :
  0 <= u < t -> t < n -> stride * n <= Z.of_nat (length mem) ->
  frame_at (write_at mem (Z.to_nat (stride * t)) (frame_of stream Len Sh t))
    stride u Len
  = frame_at mem stride u Len.
Proof.
  intros Hu Ht Hmem. unfold frame_at.
  apply write_at_read_before.
  - assert (stride * u + Len <= stride * t) by nia.
    assert (0 <= stride * u) by nia. lia.
  - apply spec_write_fits; [lia | assumption].
Qed.

Lemma spec_Frame_loop (count : nat) :
  forall (t : Z) (mem : list Float32),
    0 <= t -> t + Z.of_nat (S count) = n ->
    stride * n <= Z.of_nat (length mem) <= Int32.max_signed ->
    exists mem',
      Frame_loop FrameForIndex_spec signal num_samps stride (S count) t fs mem
      = Ok (carry_tail fs stream n, mem') /\
      length mem' = length mem /\
      (forall u, t <= u < n ->
                 frame_at mem' stride u Len = frame_of stream Len Sh u) /\
      (forall u, 0 <= u < t ->
                 frame_at mem' stride u Len = frame_at mem stride u Len).
Proof.
  induction count as [| count IH]; intros t mem Ht Hcount Hmem;
    assert (Hoff : Int32.mul stride t = stride * t)
      by (apply wrap_in_range;
          unfold Int32.in_range, Int32.min_signed, Int32.max_signed in *;
          nia);
    cbn [Frame_loop]; rewrite Hoff, spec_FrameForIndex by lia.
  - replace (t =? n - 1) with true by (symmetry; apply Z.eqb_eq; lia).
    simpl. eexists. split; [reflexivity |].
    split; [apply write_at_length |]. split.
    + intros u Hu. replace u with t by lia. apply spec_write_read; lia.
    + intros u Hu. apply spec_write_keeps; lia.
  - replace (t =? n - 1) with false by (symmetry; apply Z.eqb_neq; lia).
    cbn [bind fst snd].
    assert (Hnext : Int32.add t 1 = t + 1)
      by (apply wrap_in_range;
          unfold Int32.in_range, Int32.min_signed, Int32.max_signed in *;
          nia).
    rewrite Hnext.
    destruct (IH (t + 1)
                (write_at mem (Z.to_nat (stride * t))
                   (frame_of stream Len Sh t)))
      as (mem' & Hrun & Hlen & Hnew & Hold);
      [lia | lia | rewrite write_at_length; exact Hmem |].
    exists mem'. split; [exact Hrun |].
    split; [rewrite Hlen; apply write_at_length |]. split.
    + intros u Hu. destruct (Z.eq_dec u t) as [-> | Hne].
      * rewrite Hold by lia. apply spec_write_read; lia.
      * apply Hnew. lia.
    + intros u Hu. rewrite Hold by lia. apply spec_write_keeps; lia.
Qed.

(** A call of [Frame] that has at least one frame available returns the
    number of complete frames, leaves each of them in its row of the
    destination and carries the unconsumed tail. *)
Lemma spec_Frame (mem : list Float32) :
  stride * n <= Z.of_nat (length mem) <= Int32.max_signed ->
  exists mem',
    FrameSplitter_Frame FrameForIndex_spec signal num_samps stride fs mem
    = Ok (n, carry_tail fs stream n, mem') /\
    forall u, 0 <= u < n ->
              frame_at mem' stride u Len = frame_of stream Len Sh u.
Proof.
  intro Hmem. pose proof spec_count_pos as Hpos.
  unfold FrameSplitter_Frame. fold Len.
  replace (Len <=? stride) with true by (symmetry; apply Z.leb_le; assumption).
  rewrite spec_NumFrames. cbn [ASSERT bind fst snd].
  destruct (Z.to_nat n) as [| count] eqn:En; [lia |].
  destruct (spec_Frame_loop count 0 mem) as (mem' & Hrun & _ & Hnew & _);
    [lia | lia | exact Hmem |].
  rewrite Hrun. cbn [bind fst snd]. exists mem'.
  split; [reflexivity |]. intros u Hu. apply Hnew. lia.
Qed.

End OnlineFraming.

Lemma firstn_skipn_app_l (l1 l2 : list Float32) (a k : nat) :
  (a + k <= length l1)%nat ->
  firstn k (skipn a (l1 ++ l2)) = firstn k (skipn a l1).
Proof.
  intro H. rewrite skipn_app, firstn_app, length_skipn.
  replace (k - (length l1 - a))%nat with O by lia.
  simpl. apply app_nil_r.
Qed.

Lemma stream_of_fresh (fs : FrameSplitter) (signal : list Float32) :
  prev_discard_size_ fs = 0 ->
  stream_of fs signal (Z.of_nat (length signal)) = signal.
Proof.
  intro H. unfold stream_of. rewrite H, Nat2Z.id. simpl. apply firstn_all.
Qed.

Lemma stream_of_carry_tail (fs : FrameSplitter) (stream signal : list Float32)
    (k : Z) :
  (length (skipn (Z.to_nat (k * frame_shift (frame_opts_ fs))) stream)
   <= length (online_use_ fs))%nat ->
  stream_of (carry_tail fs stream k) signal (Z.of_nat (length signal))
  = skipn (Z.to_nat (k * frame_shift (frame_opts_ fs))) stream ++ signal.
Proof.
  intro H. unfold stream_of, carry_tail. simpl.
  rewrite !Nat2Z.id, firstn_all. f_equal.
  rewrite <- (skipn_O (write_at _ _ _)). apply write_at_read. simpl. exact H.
Qed.

(** *** Two successive calls against one batch call *)

Section TwoCalls.

Variable fs0 : FrameSplitter.
Variables sig1 sig2 dest1 dest2 destB : list Float32.
Variable stride : Z.

Let Len := frame_length (frame_opts_ fs0).
Let Sh := frame_shift (frame_opts_ fs0).
Let N1 := Z.of_nat (length sig1).
Let N2 := Z.of_nat (length sig2).
Let nB := (N1 + N2 - Len) / Sh + 1.

Hypothesis fresh : prev_discard_size_ fs0 = 0.
Hypothesis cache_size : Len <= Z.of_nat (length (online_use_ fs0)).
Hypothesis shift_pos : 0 < Sh.
Hypothesis shift_le_length : Sh <= Len.
Hypothesis length_le_stride : Len <= stride.
Hypothesis total_max : N1 + N2 <= Int32.max_signed.
Hypothesis dest1_size :
  stride * nB <= Z.of_nat (length dest1) <= Int32.max_signed.
Hypothesis dest2_size :
  stride * nB <= Z.of_nat (length dest2) <= Int32.max_signed.
Hypothesis destB_size :
  stride * nB <= Z.of_nat (length destB) <= Int32.max_signed.
Hypothesis first_available : Len <= N1.

(** C2, as amended.  Modelled from the spec ([FrameForIndex_spec]).  For
    a valid frame configuration ([0 < frame_shift <= frame_length]), a
    fresh splitter and a signal split into [sig1] and [sig2] such that
    each of the two calls has at least one complete frame available (its
    new samples plus the carried tail are no fewer than [frame_length]):
    the two calls and the batch call on [sig1 ++ sig2] return, the two
    frame counts add up to the batch count, and each frame of either call
    is sample for sample the batch frame of the same position. *)
Theorem two_calls_equal_batch :
  exists n1 fs1 d1 fsB dB,
    FrameSplitter_Frame FrameForIndex_spec sig1 N1 stride fs0 dest1
    = Ok (n1, fs1, d1) /\
    FrameSplitter_Frame FrameForIndex_spec (sig1 ++ sig2) (N1 + N2) stride
      fs0 destB
    = Ok (nB, fsB, dB) /\
    (forall t, 0 <= t < n1 ->
               frame_at d1 stride t Len = frame_at dB stride t Len) /\
    (Len <= prev_discard_size_ fs1 + N2 ->
     exists n2 fs2 d2,
       FrameSplitter_Frame FrameForIndex_spec sig2 N2 stride fs1 dest2
       = Ok (n2, fs2, d2) /\
       n1 + n2 = nB /\
       forall t, 0 <= t < n2 ->
                 frame_at d2 stride t Len = frame_at dB stride (n1 + t) Len).
Proof.
  pose proof (stream_of_fresh fs0 sig1 fresh) as Hs1.
  pose proof (stream_of_fresh fs0 (sig1 ++ sig2) fresh) as HsB.
  rewrite length_app, Nat2Z.inj_add in HsB. fold N1 N2 in Hs1, HsB.
  set (n1 := (N1 - Len) / Sh + 1).
  assert (Hn1 : 1 <= n1 /\ (n1 - 1) * Sh + Len <= N1 /\ N1 < n1 * Sh + Len).
  { unfold n1.
    pose proof (Z.div_pos (N1 - Len) Sh).
    pose proof (Z.mul_div_le (N1 - Len) Sh shift_pos).
    pose proof (Z.mod_pos_bound (N1 - Len) Sh shift_pos).
    pose proof (Z.div_mod (N1 - Len) Sh). lia. }
  assert (Hle : n1 <= nB).
  { unfold n1, nB.
    pose proof (Z.div_le_mono (N1 - Len) (N1 + N2 - Len) Sh). lia. }
  assert (HN : 0 <= N1 /\ 0 <= N2) by (unfold N1, N2; lia).
  (* the first call *)
  pose proof (spec_Frame fs0 sig1 N1 stride) as H1.
  rewrite Hs1, fresh, !Z.add_0_r in H1. fold Len Sh n1 in H1.
  destruct (H1 shift_pos shift_le_length length_le_stride
              ltac:(lia) ltac:(lia) eq_refl ltac:(lia) first_available
              dest1 ltac:(nia))
    as (d1 & Hrun1 & Hframes1); clear H1.
  (* the batch call *)
  pose proof (spec_Frame fs0 (sig1 ++ sig2) (N1 + N2) stride) as HB.
  rewrite HsB, fresh, !Z.add_0_r in HB. fold Len Sh nB in HB.
  destruct (HB shift_pos shift_le_length length_le_stride
              ltac:(lia) ltac:(lia)
              ltac:(rewrite length_app; unfold N1, N2; lia)
              ltac:(lia) ltac:(lia) destB destB_size)
    as (dB & HrunB & HframesB); clear HB.
  exists n1, (carry_tail fs0 sig1 n1), d1, (carry_tail fs0 (sig1 ++ sig2) nB), dB.
  split; [exact Hrun1 |]. split; [exact HrunB |]. split.
  - intros t Ht. rewrite Hframes1, HframesB by lia.
    unfold frame_of. symmetry. apply firstn_skipn_app_l. fold N1. nia.
  - (* the second call, on the splitter the first call left *)
    set (fs1 := carry_tail fs0 sig1 n1).
    assert (Hprev : prev_discard_size_ fs1 = N1 - n1 * Sh).
    { unfold fs1, carry_tail. cbn [prev_discard_size_]. fold Sh.
      rewrite length_skipn. fold N1. nia. }
    assert (Hs2 : stream_of fs1 sig2 N2
                  = skipn (Z.to_nat (n1 * Sh)) (sig1 ++ sig2)).
    { unfold fs1, N2. rewrite stream_of_carry_tail; fold Sh.
      - rewrite skipn_app.
        replace (Z.to_nat (n1 * Sh) - length sig1)%nat with O
          by (fold N1; nia).
        reflexivity.
      - rewrite length_skipn. fold N1. nia. }
    intro Have.
    pose proof (spec_Frame fs1 sig2 N2 stride) as H2.
    rewrite Hs2, Hprev in H2.
    change (frame_opts_ fs1) with (frame_opts_ fs0) in H2.
    fold Len Sh in H2.
    assert (Hn2 : (N2 + (N1 - n1 * Sh) - Len) / Sh + 1 = nB - n1).
    { unfold nB.
      replace (N2 + (N1 - n1 * Sh) - Len) with (N1 + N2 - Len + (- n1) * Sh)
        by lia.
      rewrite Z.div_add by lia. lia. }
    rewrite Hn2 in H2.
    destruct (H2 shift_pos shift_le_length length_le_stride
                ltac:(lia) ltac:(nia)
                ltac:(rewrite length_skipn, length_app; fold N1 N2; nia)
                ltac:(nia) ltac:(rewrite <- Hprev; lia)
                dest2 ltac:(nia))
      as (d2 & Hrun2 & Hframes2); clear H2.
    exists (nB - n1), (carry_tail fs1 (skipn (Z.to_nat (n1 * Sh)) (sig1 ++ sig2))
                         (nB - n1)), d2.
    split; [exact Hrun2 |]. split; [lia |].
    intros t Ht. rewrite Hframes2, HframesB by lia.
    unfold frame_of. rewrite skipn_skipn. do 2 f_equal. nia.
Qed.

End TwoCalls.

Lemma two_calls_equal_batch_witness :
  exists n1 fs1 d1 fsB dB,
    FrameSplitter_Frame FrameForIndex_spec (ramp 400)
      (Z.of_nat (length (ramp 400))) 400 Host.default_splitter
      (repeat 0%float 1600)
    = Ok (n1, fs1, d1) /\
    FrameSplitter_Frame FrameForIndex_spec (ramp 400 ++ ramp 600)
      (Z.of_nat (length (ramp 400)) + Z.of_nat (length (ramp 600))) 400
      Host.default_splitter (repeat 0%float 1600)
    = Ok ((Z.of_nat (length (ramp 400)) + Z.of_nat (length (ramp 600))
           - frame_length (frame_opts_ Host.default_splitter))
          / frame_shift (frame_opts_ Host.default_splitter) + 1, fsB, dB) /\
    (forall t, 0 <= t < n1 ->
               frame_at d1 400 t
                 (frame_length (frame_opts_ Host.default_splitter))
               = frame_at dB 400 t
                   (frame_length (frame_opts_ Host.default_splitter))) /\
    (frame_length (frame_opts_ Host.default_splitter)
     <= prev_discard_size_ fs1 + Z.of_nat (length (ramp 600)) ->
     exists n2 fs2 d2,
       FrameSplitter_Frame FrameForIndex_spec (ramp 600)
         (Z.of_nat (length (ramp 600))) 400 fs1 (repeat 0%float 1600)
       = Ok (n2, fs2, d2) /\
       n1 + n2
       = (Z.of_nat (length (ramp 400)) + Z.of_nat (length (ramp 600))
          - frame_length (frame_opts_ Host.default_splitter))
         / frame_shift (frame_opts_ Host.default_splitter) + 1 /\
       forall t, 0 <= t < n2 ->
                 frame_at d2 400 t
                   (frame_length (frame_opts_ Host.default_splitter))
                 = frame_at dB 400 (n1 + t)
                     (frame_length (frame_opts_ Host.default_splitter))).
Proof.
  apply (two_calls_equal_batch Host.default_splitter (ramp 400) (ramp 600));
    vm_compute; repeat split; try reflexivity; discriminate.
Defined.

(** The two calls of the amended statement on 400 + 600 samples: 1 and 3
    frames, 4 in one batch. *)
Example two_calls_400_600 :
  returned_count
    (r <- FrameSplitter_Frame FrameForIndex_spec (ramp 400) 400 400
            Host.default_splitter (repeat 0%float 1600) ;;
     FrameSplitter_Frame FrameForIndex_spec (ramp 600) 600 400
       (snd (fst r)) (repeat 0%float 1600)) = Some 3 /\
  returned_count
    (FrameSplitter_Frame FrameForIndex_spec (ramp 400) 400 400
       Host.default_splitter (repeat 0%float 1600)) = Some 1 /\
  returned_count
    (FrameSplitter_Frame FrameForIndex_spec (ramp 400 ++ ramp 600) 1000 400
       Host.default_splitter (repeat 0%float 1600)) = Some 4.
Proof. repeat split; vm_compute; reflexivity. Qed.

(** C2, as stated, fails.  1000 samples split into 240 + 760 on a default
    splitter (frame length 400, shift 160): the first call has no frame,
    never calls [FrameForIndex] and leaves the splitter as it was, so none
    of the 240 samples is carried; the second call returns 3 frames, the
    batch call 4. *)
Lemma short_first_chunk_is_dropped :
  (forall ffi : FrameForIndex_t,
     FrameSplitter_Frame ffi (firstn 240 (ramp 1000)) 240 400
       Host.default_splitter (repeat 0%float 1600)
     = Ok (0, Host.default_splitter, repeat 0%float 1600)) /\
  returned_count
    (FrameSplitter_Frame FrameForIndex_spec (skipn 240 (ramp 1000)) 760 400
       Host.default_splitter (repeat 0%float 1600)) = Some 3 /\
  returned_count
    (FrameSplitter_Frame FrameForIndex_spec (ramp 1000) 1000 400
       Host.default_splitter (repeat 0%float 1600)) = Some 4.
Proof.
  split; [| split; vm_compute; reflexivity].
  intro ffi. apply Frame_without_frames with (w := true).
  - vm_compute. discriminate.
  - vm_compute. reflexivity.
  - lia.
Qed.

(** ** Feature dimension and the resolved upper frequency bound *)

Section Lifetime.

Variable ext : Externals.

Lemma SpectrogramComputer_step_padding (ks : list call) :
  forall c : SpectrogramComputer ext,
    padding_length_ (fold_left SpectrogramComputer_step ks c)
    = padding_length_ c.
Proof.
  induction ks as [| k ks IH]; intro c; [reflexivity |].
  simpl. rewrite IH. destruct k; reflexivity.
Qed.

Lemma FbankComputer_step_fields (ks : list call) :
  forall c : FbankComputer ext,
    num_bins_ (fold_left FbankComputer_step ks c) = num_bins_ c /\
    upper_bound_ (fold_left FbankComputer_step ks c) = upper_bound_ c.
Proof.
  induction ks as [| k ks IH]; intro c; [split; reflexivity |].
  simpl. destruct (IH (FbankComputer_step c k)) as [-> ->].
  destruct k; split; reflexivity.
Qed.

Lemma MfccComputer_step_num_ceps (ks : list call) :
  forall c : MfccComputer ext,
    num_ceps_ (fold_left MfccComputer_step ks c) = num_ceps_ c.
Proof.
  induction ks as [| k ks IH]; intro c; [reflexivity |].
  simpl. rewrite IH. destruct k; reflexivity.
Qed.

(** The padding length of a constructed computer is a non-negative
    [Int32]: it was the length of an allocation. *)
Lemma SpectrogramComputer_new_padding (o : SpectrogramOpts)
    (c : SpectrogramComputer ext) :
  SpectrogramComputer_new ext o = Ok c ->
  0 <= padding_length_ c <= Int32.max_signed.
Proof.
  unfold SpectrogramComputer_new. intro H.
  apply bind_Ok in H as (fs & _ & H).
  apply bind_Ok in H as (cache & Hcache & H).
  injection H as <-. simpl.
  apply new_Float32_Ok in Hcache as [Hpos _].
  split; [exact Hpos |].
  apply (wrap_range
           (RoundUpToNearestPowerOfTwo ext (frame_length (frame_opts_ fs)))).
Qed.

Lemma FeatureDim_of_padding (c : SpectrogramComputer ext) :
  0 <= padding_length_ c <= Int32.max_signed ->
  SpectrogramComputer_FeatureDim c = padding_length_ c / 2 + 1.
Proof.
  unfold Int32.max_signed. intro H.
  unfold SpectrogramComputer_FeatureDim, Int32.add, Int32.quot.
  rewrite Z.quot_div_nonneg by lia.
  assert (0 <= padding_length_ c / 2 <= padding_length_ c).
  { split; [apply Z.div_pos; lia |].
    apply Z.div_le_upper_bound; lia. }
  rewrite (wrap_in_range (padding_length_ c / 2))
    by (unfold Int32.in_range, Int32.min_signed, Int32.max_signed; lia).
  apply wrap_in_range.
  assert (padding_length_ c / 2 < 2 ^ 30)
    by (apply Z.div_lt_upper_bound; lia).
  unfold Int32.in_range, Int32.min_signed, Int32.max_signed. lia.
Qed.

Lemma FbankComputer_new_fields (o : FbankOpts) (c : FbankComputer ext) :
  FbankComputer_new ext o = Ok c ->
  num_bins_ c = num_mel_bins o /\
  upper_bound_ c
  = if 0 <? upper_bound o then upper_bound o
    else Int32.add
           (Int32.shr1 (sample_rate (frame_opts (spectrogram_opts o))))
           (upper_bound o).
Proof.
  unfold FbankComputer_new. intro H.
  apply bind_Ok in H as (sc & _ & H).
  apply bind_Ok in H as ([] & _ & H).
  apply bind_Ok in H as ([] & _ & H).
  apply bind_Ok in H as (cache & _ & H).
  apply bind_Ok in H as (mel & _ & H).
  injection H as <-. split; reflexivity.
Qed.

Lemma MfccComputer_new_fields (o : MfccOpts) (c : MfccComputer ext) :
  MfccComputer_new ext o = Ok c ->
  num_ceps_ c = num_ceps o /\
  lifter_coeffs_ c
  = map (lifter_coeff ext (cepstral_lifter o)) (indices (num_ceps o)) /\
  MfccOpts_Check o = Ok tt.
Proof.
  unfold MfccComputer_new. intro H.
  apply bind_Ok in H as (fb & _ & H).
  apply bind_Ok in H as ([] & Hcheck & H).
  apply bind_Ok in H as (l & _ & H).
  apply bind_Ok in H as ([] & _ & H).
  apply bind_Ok in H as (d & _ & H).
  apply bind_Ok in H as (cache & _ & H).
  injection H as <-. repeat split; assumption.
Qed.

End Lifetime.

(** C6.  Whatever calls ([ComputeFrame], [FeatureDim], [NumFrames],
    [Reset]) a constructed computer has gone through, [FeatureDim] is
    [padding_length / 2 + 1] for a [SpectrogramComputer], the configured
    [num_mel_bins] for an [FbankComputer] and the configured [num_ceps]
    for an [MfccComputer]. *)
Theorem FeatureDim_constant (ext : Externals) (ks : list call) :
  (forall o c,
     SpectrogramComputer_new ext o = Ok c ->
     SpectrogramComputer_FeatureDim (fold_left SpectrogramComputer_step ks c)
     = SpectrogramComputer_PaddingLength c / 2 + 1) /\
  (forall o c,
     FbankComputer_new ext o = Ok c ->
     FbankComputer_FeatureDim (fold_left FbankComputer_step ks c)
     = num_mel_bins o) /\
  (forall o c,
     MfccComputer_new ext o = Ok c ->
     MfccComputer_FeatureDim (fold_left MfccComputer_step ks c)
     = num_ceps o).
Proof.
  repeat split; intros o c H.
  - apply SpectrogramComputer_new_padding in H.
    rewrite FeatureDim_of_padding; rewrite SpectrogramComputer_step_padding.
    + reflexivity.
    + exact H.
  - unfold FbankComputer_FeatureDim.
    destruct (FbankComputer_step_fields ext ks c) as [-> _].
    apply FbankComputer_new_fields in H. tauto.
  - unfold MfccComputer_FeatureDim. rewrite MfccComputer_step_num_ceps.
    apply MfccComputer_new_fields in H. tauto.
Qed.

Lemma FeatureDim_constant_witness :
  exists sc fc mc,
    SpectrogramComputer_new Host.env SpectrogramOpts_default = Ok sc /\
    FbankComputer_new Host.env FbankOpts_default = Ok fc /\
    MfccComputer_new Host.env MfccOpts_default = Ok mc /\
    SpectrogramComputer_FeatureDim
      (fold_left SpectrogramComputer_step [CallReset; CallFeatureDim] sc)
    = SpectrogramComputer_PaddingLength sc / 2 + 1 /\
    FbankComputer_FeatureDim
      (fold_left FbankComputer_step [CallReset; CallFeatureDim] fc) = 23 /\
    MfccComputer_FeatureDim
      (fold_left MfccComputer_step [CallReset; CallFeatureDim] mc) = 13.
Proof.
  destruct (SpectrogramComputer_new Host.env SpectrogramOpts_default)
    as [sc |] eqn:Hs; [| vm_compute in Hs; discriminate].
  destruct (FbankComputer_new Host.env FbankOpts_default)
    as [fc |] eqn:Hf; [| vm_compute in Hf; discriminate].
  destruct (MfccComputer_new Host.env MfccOpts_default)
    as [mc |] eqn:Hm; [| vm_compute in Hm; discriminate].
  destruct (FeatureDim_constant Host.env [CallReset; CallFeatureDim])
    as (H1 & H2 & H3).
  exists sc, fc, mc. repeat split.
  - exact (H1 _ _ Hs).
  - exact (H2 _ _ Hf).
  - exact (H3 _ _ Hm).
Defined.

(** The concrete scenario of the specification: frame length 400 gives
    padding length 512 and 257 spectrogram bins. *)
Example FeatureDim_400 :
  match SpectrogramComputer_new Host.env SpectrogramOpts_default with
  | Ok c => Some (SpectrogramComputer_PaddingLength c,
                  SpectrogramComputer_FeatureDim c)
  | Halt _ => None
  end = Some (512, 257).
Proof. vm_compute. reflexivity. Qed.

Lemma external_Ok {A : Type} (o : option A) (a : A) :
  external o = Ok a -> o = Some a.
Proof. destruct o; simpl; congruence. Qed.

Lemma FbankComputer_step_mel_coeff (ext : Externals) (ks : list call) :
  forall c : FbankComputer ext,
    mel_coeff_ (fold_left FbankComputer_step ks c) = mel_coeff_ c.
Proof.
  induction ks as [| k ks IH]; intro c; [reflexivity |].
  simpl. rewrite IH. destruct k; reflexivity.
Qed.

(** The one call of [ComputeMelFilters] in the constructor: its last
    argument is the bound the computer keeps, and its answer is the filter
    bank the computer keeps. *)
Lemma FbankComputer_new_mel_coeff (ext : Externals) (o : FbankOpts)
    (c : FbankComputer ext) :
  FbankComputer_new ext o = Ok c ->
  ComputeMelFilters ext
    (SpectrogramComputer_FeatureDim (spectrogram_computer_ c))
    (num_mel_bins o)
    (Int32.shr1 (sample_rate (frame_opts (spectrogram_opts o))))
    (lower_bound o) (upper_bound_ c)
  = Some (mel_coeff_ c).
Proof.
  unfold FbankComputer_new. intro H.
  apply bind_Ok in H as (sc & _ & H).
  apply bind_Ok in H as ([] & _ & H).
  apply bind_Ok in H as ([] & _ & H).
  apply bind_Ok in H as (cache & _ & H).
  apply bind_Ok in H as (mel & Hmel & H).
  injection H as <-. cbn [spectrogram_computer_ upper_bound_ mel_coeff_].
  apply external_Ok. exact Hmel.
Qed.

(** C7.  The upper bound an [FbankComputer] holds, at any point of its
    life, is the configured one when that is positive and otherwise the
    configured one added to [sample_rate / 2] (the sum being an [Int32]:
    no signed overflow); it is computed by the constructor from the
    configured sample rate.  The mel filters are built from that resolved
    bound: the filter bank the computer holds is the answer of
    [ComputeMelFilters] on the spectrogram dimension, the configured number
    of bins, [sample_rate / 2], the configured lower bound and the resolved
    upper bound, and no later call replaces it. *)
Theorem upper_bound_resolution (ext : Externals) (o : FbankOpts)
    (c : FbankComputer ext) (ks : list call) :
  FbankComputer_new ext o = Ok c ->
  Int32.in_range
    (sample_rate (frame_opts (spectrogram_opts o)) / 2 + upper_bound o) ->
  upper_bound_ (fold_left FbankComputer_step ks c)
  = (if upper_bound o <=? 0
     then sample_rate (frame_opts (spectrogram_opts o)) / 2 + upper_bound o
     else upper_bound o) /\
  ComputeMelFilters ext
    (SpectrogramComputer_FeatureDim (spectrogram_computer_ c))
    (num_mel_bins o)
    (sample_rate (frame_opts (spectrogram_opts o)) / 2)
    (lower_bound o)
    (if upper_bound o <=? 0
     then sample_rate (frame_opts (spectrogram_opts o)) / 2 + upper_bound o
     else upper_bound o)
  = Some (mel_coeff_ c) /\
  mel_coeff_ (fold_left FbankComputer_step ks c) = mel_coeff_ c.
Proof.
  intros H Hrange.
  assert (Hup : upper_bound_ c
                = if upper_bound o <=? 0
                  then sample_rate (frame_opts (spectrogram_opts o)) / 2
                       + upper_bound o
                  else upper_bound o).
  { pose proof (FbankComputer_new_fields ext o c H) as [_ ->].
    unfold Int32.add, Int32.shr1.
    rewrite Z.shiftr_div_pow2 by lia. change (2 ^ 1) with 2.
    destruct (Z.ltb_spec 0 (upper_bound o)), (Z.leb_spec (upper_bound o) 0);
      try lia; try reflexivity.
    apply wrap_in_range. exact Hrange. }
  split; [| split].
  - destruct (FbankComputer_step_fields ext ks c) as [_ ->]. exact Hup.
  - rewrite <- Hup.
    pose proof (FbankComputer_new_mel_coeff ext o c H) as Hmel.
    unfold Int32.shr1 in Hmel.
    rewrite Z.shiftr_div_pow2 in Hmel by lia. exact Hmel.
  - apply FbankComputer_step_mel_coeff.
Qed.

Lemma upper_bound_resolution_witness :
  exists c,
    FbankComputer_new Host.env FbankOpts_default = Ok c /\
    Int32.in_range (16000 / 2 + 0) /\
    upper_bound_ (fold_left FbankComputer_step [CallReset] c) = 8000 /\
    ComputeMelFilters Host.env 257 23 8000 20 8000 = Some (mel_coeff_ c) /\
    mel_coeff_ (fold_left FbankComputer_step [CallReset] c) = mel_coeff_ c.
Proof.
  destruct (FbankComputer_new Host.env FbankOpts_default)
    as [c |] eqn:Hc; [| vm_compute in Hc; discriminate].
  exists c. split; [reflexivity |].
  assert (Hr : Int32.in_range (16000 / 2 + 0))
    by (vm_compute; split; discriminate).
  split; [exact Hr |].
  destruct (upper_bound_resolution Host.env FbankOpts_default c [CallReset]
              Hc Hr) as (Hup & Hmel & Hkeep).
  split; [exact Hup |]. split; [| exact Hkeep].
  assert (Hdim : SpectrogramComputer_FeatureDim (spectrogram_computer_ c) = 257).
  { vm_compute in Hc. injection Hc as <-. reflexivity. }
  rewrite Hdim in Hmel. exact Hmel.
Defined.

(** ** Floating-point facts *)

Lemma float_of_SF (x y : float) : Prim2SF x = Prim2SF y -> x = y.
Proof. apply Prim2SF_inj. Qed.

Lemma SFadd_comm (x y : spec_float) : SF64add x y = SF64add y x.
Proof.
  unfold SF64add.
  destruct x as [sx | sx | | sx mx ex], y as [sy | sy | | sy my ey];
    try reflexivity;
    try (destruct sx, sy; reflexivity).
  unfold SFadd. rewrite (Z.min_comm ey ex). f_equal. apply Z.add_comm.
Qed.

Lemma float_add_comm (x y : float) : (x + y = y + x)%float.
Proof. apply float_of_SF. rewrite !add_spec. apply SFadd_comm. Qed.

Lemma float_mul_nan_r (x : float) : (x * nan = nan)%float.
Proof.
  apply float_of_SF. rewrite mul_spec.
  change (Prim2SF nan) with S754_nan.
  destruct (Prim2SF x); reflexivity.
Qed.

Lemma float_add_nan_l (y : float) : (nan + y = nan)%float.
Proof.
  apply float_of_SF. rewrite add_spec.
  change (Prim2SF nan) with S754_nan.
  destruct (Prim2SF y); reflexivity.
Qed.

(** A quotient by zero is an infinity or a NaN. *)
Lemma float_div_zero_nonfinite (x : float) : nonfinite (x / 0) = true.
Proof.
  unfold nonfinite. rewrite div_spec.
  change (Prim2SF 0) with (S754_zero false).
  destruct (Prim2SF x); reflexivity.
Qed.

Lemma positive_finite_SF (x : float) :
  positive_finite x = true ->
  exists m e, Prim2SF x = S754_finite false m e.
Proof.
  unfold positive_finite. rewrite !ltb_spec.
  change (Prim2SF 0) with (S754_zero false).
  change (Prim2SF infinity) with (S754_infinity false).
  destruct (Prim2SF x) as [s | s | | s m e]; simpl;
    try discriminate; try (destruct s; discriminate).
  destruct s; [discriminate |]. intros _. exists m, e. reflexivity.
Qed.

(** *** Rounding without overflow *)

Lemma digits2_pos_size (p : positive) : digits2_pos p = Pos.size p.
Proof. induction p; simpl; congruence. Qed.

Lemma Zdigits2_nonneg (m : Z) : 0 <= Zdigits2 m.
Proof. destruct m; simpl; lia. Qed.

Lemma Zdigits2_lt_pow (m : Z) : 0 <= m -> m < 2 ^ Zdigits2 m.
Proof.
  destruct m as [| p | p]; intro H; [reflexivity | | lia].
  simpl Zdigits2. rewrite digits2_pos_size.
  pose proof (Pos.size_gt p) as Hp.
  rewrite <- Pos2Z.inj_pow. lia.
Qed.

Lemma Zdigits2_ge_pow (p : positive) : 2 ^ (Zdigits2 (Zpos p) - 1) <= Zpos p.
Proof.
  simpl Zdigits2. rewrite digits2_pos_size.
  pose proof (Pos.size_le p) as Hp.
  assert (H : 2 ^ Zpos (Pos.size p) <= 2 * Zpos p).
  { rewrite <- Pos2Z.inj_pow. lia. }
  replace (Zpos (Pos.size p)) with (Z.succ (Zpos (Pos.size p) - 1)) in H by lia.
  rewrite Z.pow_succ_r in H by lia. lia.
Qed.

Lemma Zdigits2_le (m k : Z) : 0 <= m -> 0 <= k -> m < 2 ^ k -> Zdigits2 m <= k.
Proof.
  intros Hm Hk Hlt. destruct m as [| p | p]; [simpl; lia | | lia].
  pose proof (Zdigits2_ge_pow p) as Hge.
  destruct (Z.le_gt_cases (Zdigits2 (Zpos p)) k) as [Hle | Hgt]; [exact Hle |].
  assert (2 ^ k <= 2 ^ (Zdigits2 (Zpos p) - 1))
    by (apply Z.pow_le_mono_r; lia).
  lia.
Qed.

Lemma Zdigits2_succ (m : Z) : 0 <= m -> Zdigits2 (m + 1) <= Zdigits2 m + 1.
Proof.
  intro Hm. pose proof (Zdigits2_nonneg m) as Hd.
  apply Zdigits2_le; [lia | lia |].
  pose proof (Zdigits2_lt_pow m Hm).
  rewrite Z.pow_add_r by lia. change (2 ^ 1) with 2. lia.
Qed.

Lemma shr_1_digits (r : shr_record) :
  0 <= shr_m r ->
  0 <= shr_m (shr_1 r) /\
  Zdigits2 (shr_m (shr_1 r)) = Z.max 0 (Zdigits2 (shr_m r) - 1).
Proof.
  destruct r as [m rb sb]. simpl shr_m at 1. intro Hm.
  destruct m as [| p | p]; [simpl; lia | | lia].
  destruct p; cbn [shr_1 shr_m Zdigits2 digits2_pos orb];
    rewrite ?Pos2Z.inj_succ; lia.
Qed.

Lemma iter_pos_shr_1_digits (k : positive) :
  forall r : shr_record,
    0 <= shr_m r ->
    0 <= shr_m (iter_pos shr_1 k r) /\
    Zdigits2 (shr_m (iter_pos shr_1 k r))
    = Z.max 0 (Zdigits2 (shr_m r) - Zpos k).
Proof.
  induction k as [k IH | k IH |]; intros r Hr; cbn [iter_pos].
  - destruct (shr_1_digits r Hr) as [H1 E1].
    destruct (IH _ H1) as [H2 E2]. destruct (IH _ H2) as [H3 E3].
    split; [exact H3 |]. rewrite E3, E2, E1. lia.
  - destruct (IH _ Hr) as [H2 E2]. destruct (IH _ H2) as [H3 E3].
    split; [exact H3 |]. rewrite E3, E2. lia.
  - apply shr_1_digits. exact Hr.
Qed.

Lemma shr_fexp_bounds (m e : Z) (l : location) :
  0 <= m ->
  let r := shr_fexp prec emax m e l in
  0 <= shr_m (fst r) /\
  snd r <= Z.max e (fexp prec emax (Zdigits2 m + e)) /\
  Zdigits2 (shr_m (fst r)) + snd r
  <= Z.max (Zdigits2 m + e) (fexp prec emax (Zdigits2 m + e)).
Proof.
  intros Hm. unfold shr_fexp, shr.
  assert (Hrec : shr_m (shr_record_of_loc m l) = m)
    by (destruct l as [| []]; reflexivity).
  destruct (fexp prec emax (Zdigits2 m + e) - e) as [| k | k] eqn:En;
    cbn [fst snd]; rewrite ?Hrec.
  - repeat split; lia.
  - destruct (iter_pos_shr_1_digits k (shr_record_of_loc m l)) as [H1 E1];
      [rewrite Hrec; exact Hm |].
    rewrite Hrec in E1. rewrite E1. repeat split; lia.
  - repeat split; lia.
Qed.

Lemma round_nearest_even_bounds (m : Z) (l : location) :
  0 <= m ->
  0 <= round_nearest_even m l /\
  Zdigits2 (round_nearest_even m l) <= Zdigits2 m + 1.
Proof.
  intro Hm. pose proof (Zdigits2_succ m Hm).
  unfold round_nearest_even.
  destruct l as [| []]; try destruct (Z.even m); split; lia.
Qed.

(** The rounding of a product does not overflow when the exponent of the
    exact value is below the largest one. *)
Lemma binary_round_aux_finite (s : bool) (m : positive) (e : Z) :
  Zdigits2 (Zpos m) + e <= 1023 -> e <= 970 ->
  binary_round_aux prec emax s (Zpos m) e loc_Exact = S754_zero s \/
  exists m' e', binary_round_aux prec emax s (Zpos m) e loc_Exact
                = S754_finite s m' e'.
Proof.
  intros Hd He. unfold binary_round_aux.
  pose proof (shr_fexp_bounds (Zpos m) e loc_Exact ltac:(lia)) as H1.
  destruct (shr_fexp prec emax (Zpos m) e loc_Exact) as [r1 e1].
  cbn [fst snd] in H1. destruct H1 as (Hm1 & He1 & Hd1).
  pose proof (round_nearest_even_bounds (shr_m r1) (loc_of_shr_record r1) Hm1)
    as [Hm2 Hd2].
  pose proof (shr_fexp_bounds
                (round_nearest_even (shr_m r1) (loc_of_shr_record r1))
                e1 loc_Exact Hm2) as H3.
  destruct (shr_fexp prec emax
              (round_nearest_even (shr_m r1) (loc_of_shr_record r1))
              e1 loc_Exact) as [r2 e2].
  cbn [fst snd] in H3. destruct H3 as (Hm3 & He3 & _).
  unfold fexp, SpecFloat.emin, prec, emax in *.
  destruct (shr_m r2) as [| p | p]; [left; reflexivity | | lia].
  right. replace (e2 <=? 1024 - 53) with true
    by (symmetry; apply Z.leb_le; lia).
  eauto.
Qed.

Lemma digits2_pos_mul_half (m : positive) :
  Zpos (digits2_pos (4503599627370496 * m)) = Zpos (digits2_pos m) + 52.
Proof.
  cbn [Pos.mul digits2_pos]. rewrite !Pos2Z.inj_succ. lia.
Qed.

(** Half of a positive finite value is a zero or a finite value. *)
Lemma float_half_finite (x : float) (m : positive) (e : Z) :
  Prim2SF x = S754_finite false m e ->
  Prim2SF (0.5 * x) = S754_zero false \/
  exists m' e', Prim2SF (0.5 * x) = S754_finite false m' e'.
Proof.
  intro Hx. pose proof (Prim2SF_valid x) as Hv. rewrite Hx in Hv.
  rewrite mul_spec, Hx.
  change (Prim2SF 0.5) with (S754_finite false 4503599627370496 (-53)).
  unfold SF64mul, SFmul. cbn [xorb].
  cbn [SpecFloat.valid_binary] in Hv. unfold bounded in Hv.
  apply andb_true_iff in Hv as [Hc He].
  unfold canonical_mantissa in Hc. apply Z.eqb_eq in Hc. apply Z.leb_le in He.
  unfold fexp, SpecFloat.emin, prec, emax in Hc, He.
  apply binary_round_aux_finite.
  - cbn [Zdigits2]. rewrite digits2_pos_mul_half. lia.
  - lia.
Qed.

(** [y * 0 + 1 = 1] for a positive zero or positive finite [y]. *)
Lemma float_mul_zero_add_one (y : float) :
  (Prim2SF y = S754_zero false \/
   exists m e, Prim2SF y = S754_finite false m e) ->
  (y * 0 + 1 = 1)%float.
Proof.
  intro Hy. apply float_of_SF. rewrite add_spec, mul_spec.
  change (Prim2SF 0) with (S754_zero false).
  destruct Hy as [-> | (m & e & ->)]; reflexivity.
Qed.

Lemma float_mul_zero_r (x : float) :
  positive_finite x = true -> (x * 0 = 0)%float.
Proof.
  intro H. apply positive_finite_SF in H as (m & e & H).
  apply float_of_SF. rewrite mul_spec, H. reflexivity.
Qed.

Lemma float_zero_div (x : float) :
  positive_finite x = true -> (0 / x = 0)%float.
Proof.
  intro H. apply positive_finite_SF in H as (m & e & H).
  apply float_of_SF. rewrite div_spec, H. reflexivity.
Qed.

Lemma nonfinite_cases (x : float) :
  nonfinite x = true -> x = nan \/ x = infinity \/ x = neg_infinity.
Proof.
  unfold nonfinite. intro H. rewrite <- (SF2Prim_Prim2SF x).
  destruct (Prim2SF x) as [s | s | | s m e]; try discriminate.
  - destruct s; auto.
  - auto.
Qed.

Lemma cubic_sin_nonfinite (x : float) :
  nonfinite x = true -> Host.cubic_sin x = nan.
Proof.
  intro H. destruct (nonfinite_cases x H) as [-> | [-> | ->]]; reflexivity.
Qed.

Lemma nth_map_indices (f : Z -> Float32) (n i : Z) (d : Float32) :
  0 <= i < n -> nth (Z.to_nat i) (map f (indices n)) d = f i.
Proof.
  intro H. unfold indices. rewrite map_map.
  rewrite nth_indep with (d' := f (Z.of_nat 0))
    by (rewrite length_map, length_seq; lia).
  rewrite (map_nth (fun k => f (Z.of_nat k))), seq_nth by lia.
  f_equal. lia.
Qed.

(** ** Cepstral lifter coefficients *)

Lemma lifter_coeff_zero_index (ext : Externals) (cl : Float32) :
  positive_finite cl = true -> positive_finite (PI ext) = true ->
  sin ext 0 = 0%float ->
  lifter_coeff ext cl 0 = 1%float.
Proof.
  intros Hcl Hpi Hsin. unfold lifter_coeff.
  change (double_of_Int32 0) with 0%float.
  rewrite (float_mul_zero_r _ Hpi), (float_zero_div _ Hcl), Hsin.
  rewrite float_mul_zero_add_one; [reflexivity |].
  apply positive_finite_SF in Hcl as (m & e & Hcl).
  apply (float_half_finite cl m e Hcl).
Qed.

Lemma lifter_coeff_zero_lifter (ext : Externals) (i : Z) :
  (forall x, nonfinite x = true -> sin ext x = nan) ->
  lifter_coeff ext 0%float i = nan.
Proof.
  intro Hsin. unfold lifter_coeff.
  rewrite (Hsin _ (float_div_zero_nonfinite _)).
  rewrite float_mul_nan_r, float_add_nan_l. reflexivity.
Qed.

(** C8.  In a constructed [MfccComputer] the lifter coefficient of index
    [i] is [1 + 0.5 * cepstral_lifter * sin(PI * i / cepstral_lifter)],
    evaluated in double precision and stored as a [Float32]; for a
    positive (finite) lifter parameter the coefficient of index 0 is 1,
    [PI] being a positive finite constant and [sin(0)] being [0]. *)
Theorem lifter_coefficients (ext : Externals) (o : MfccOpts)
    (c : MfccComputer ext) :
  MfccComputer_new ext o = Ok c ->
  (forall i, 0 <= i < num_ceps o ->
     nth (Z.to_nat i) (lifter_coeffs_ c) nan
     = to_f32
         (1 + 0.5 * cepstral_lifter o
              * sin ext (PI ext * double_of_Int32 i / cepstral_lifter o))%float) /\
  (positive_finite (cepstral_lifter o) = true ->
   positive_finite (PI ext) = true ->
   sin ext 0 = 0%float ->
   nth 0 (lifter_coeffs_ c) nan = 1%float).
Proof.
  intro H. apply MfccComputer_new_fields in H as (_ & -> & Hcheck).
  apply MfccOpts_Check_Ok in Hcheck as [_ Hceps].
  split.
  - intros i Hi. rewrite nth_map_indices by exact Hi.
    unfold lifter_coeff. f_equal. apply float_add_comm.
  - intros Hcl Hpi Hsin.
    rewrite (nth_map_indices _ (num_ceps o) 0) by lia.
    apply lifter_coeff_zero_index; assumption.
Qed.

Lemma lifter_coefficients_witness :
  exists c,
    MfccComputer_new Host.env MfccOpts_default = Ok c /\
    positive_finite (cepstral_lifter MfccOpts_default) = true /\
    positive_finite (PI Host.env) = true /\
    sin Host.env 0 = 0%float /\
    nth 0 (lifter_coeffs_ c) nan = 1%float /\
    nth (Z.to_nat 12) (lifter_coeffs_ c) nan
    = to_f32
        (1 + 0.5 * 22 * sin Host.env (PI Host.env * double_of_Int32 12 / 22))%float.
Proof.
  destruct (MfccComputer_new Host.env MfccOpts_default)
    as [c |] eqn:Hc; [| vm_compute in Hc; discriminate].
  destruct (lifter_coefficients Host.env MfccOpts_default c Hc) as [Hall Hzero].
  exists c. repeat split.
  - apply Hzero; reflexivity.
  - apply (Hall 12). vm_compute. split; [discriminate | reflexivity].
Defined.

(** C9.  [MfccOpts::Check] gives the same result whatever the lifter
    parameter.  For a configuration with [cepstral_lifter = 0] from which
    the computer is constructed (so [Check] succeeded), the argument
    [PI * i / cepstral_lifter] of the sine is a quotient by zero, an
    infinity or a NaN, for every index, and every lifter coefficient is a
    NaN, the sine of an infinity or a NaN being a NaN. *)
Theorem zero_cepstral_lifter (ext : Externals) (o : MfccOpts)
    (c : MfccComputer ext) :
  (forall x, nonfinite x = true -> sin ext x = nan) ->
  cepstral_lifter o = 0%float ->
  MfccComputer_new ext o = Ok c ->
  (forall cl, MfccOpts_Check (with_cepstral_lifter cl o) = MfccOpts_Check o) /\
  MfccOpts_Check o = Ok tt /\
  forall i, 0 <= i < num_ceps o ->
    nonfinite (PI ext * double_of_Int32 i / cepstral_lifter o) = true /\
    nth (Z.to_nat i) (lifter_coeffs_ c) 0%float = nan.
Proof.
  intros Hsin Hzero H.
  apply MfccComputer_new_fields in H as (_ & -> & Hcheck).
  split; [reflexivity |]. split; [exact Hcheck |].
  intros i Hi. rewrite Hzero. split.
  - apply float_div_zero_nonfinite.
  - rewrite nth_map_indices by exact Hi.
    apply lifter_coeff_zero_lifter. exact Hsin.
Qed.

Lemma zero_cepstral_lifter_witness :
  exists c,
    MfccComputer_new Host.env (MfccOpts_new 13 true 0%float) = Ok c /\
    MfccOpts_Check (MfccOpts_new 13 true 0%float) = Ok tt /\
    nonfinite (PI Host.env * double_of_Int32 0 / 0)%float = true /\
    nth (Z.to_nat 0) (lifter_coeffs_ c) 0%float = nan /\
    nth (Z.to_nat 12) (lifter_coeffs_ c) 0%float = nan.
Proof.
  destruct (MfccComputer_new Host.env (MfccOpts_new 13 true 0%float))
    as [c |] eqn:Hc; [| vm_compute in Hc; discriminate].
  destruct (zero_cepstral_lifter Host.env (MfccOpts_new 13 true 0%float) c
              cubic_sin_nonfinite eq_refl Hc) as (_ & Hcheck & Hall).
  exists c. split; [reflexivity |]. split; [exact Hcheck |].
  split; [exact (proj1 (Hall 0 ltac:(vm_compute; split; [discriminate | reflexivity]))) |].
  split.
  - exact (proj2 (Hall 0 ltac:(vm_compute; split; [discriminate | reflexivity]))).
  - exact (proj2 (Hall 12 ltac:(vm_compute; split; [discriminate | reflexivity]))).
Defined.

(** * Further properties *)

(** ** Validation through the option classes *)

Lemma Check_Ok_or_assertion :
  (forall o, FrameOpts_Check o = Ok tt \/
             FrameOpts_Check o = Halt AssertionFailed) /\
  (forall o, FbankOpts_Check o = Ok tt \/
             FbankOpts_Check o = Halt AssertionFailed) /\
  (forall o, MfccOpts_Check o = Ok tt \/
             MfccOpts_Check o = Halt AssertionFailed).
Proof.
  assert (Hf : forall o, FrameOpts_Check o = Ok tt \/
                         FrameOpts_Check o = Halt AssertionFailed).
  { intro o. unfold FrameOpts_Check.
    destruct (ASSERT_cases
                (negb (sample_rate o =? 0)
                 && (frame_shift o <=? frame_length o))) as [-> | ->];
      [| right; reflexivity].
    apply ASSERT_cases. }
  assert (Hb : forall o, FbankOpts_Check o = Ok tt \/
                         FbankOpts_Check o = Halt AssertionFailed).
  { intro o. unfold FbankOpts_Check, SpectrogramOpts_Check.
    destruct (Hf (frame_opts (spectrogram_opts o))) as [-> | ->];
      [| right; reflexivity].
    cbn [bind].
    destruct (ASSERT_cases (3 <=? num_mel_bins o)) as [-> | ->];
      [| right; reflexivity].
    apply ASSERT_cases. }
  repeat split; [exact Hf | exact Hb |].
  intro o. unfold MfccOpts_Check.
  destruct (Hb (fbank_opts o)) as [-> | ->]; [| right; reflexivity].
  apply ASSERT_cases.
Qed.

(** X1.  [MfccOpts::Check] succeeds exactly when the embedded frame
    options pass [FrameOpts::Check], there are at least 3 mel bins, the
    lower bound is not negative and there is at least 1 cepstral
    coefficient; when it does not succeed it stops on an assertion. *)
Theorem MfccOpts_Check_layers (o : MfccOpts) :
  (MfccOpts_Check o = Ok tt <->
   FrameOpts_Check (frame_opts (spectrogram_opts (fbank_opts o))) = Ok tt /\
   3 <= num_mel_bins (fbank_opts o) /\
   0 <= lower_bound (fbank_opts o) /\
   1 <= num_ceps o) /\
  (MfccOpts_Check o = Ok tt \/ MfccOpts_Check o = Halt AssertionFailed).
Proof.
  split; [| apply Check_Ok_or_assertion].
  rewrite MfccOpts_Check_Ok, FbankOpts_Check_Ok.
  unfold SpectrogramOpts_Check. tauto.
Qed.

(** X2.  A pre-emphasis coefficient accepted by [FrameOpts::Check] is
    neither a NaN nor an infinity, and it is not below zero. *)
Theorem Check_preemph_finite (o : FrameOpts) :
  FrameOpts_Check o = Ok tt ->
  nonfinite (preemph_coeff o) = false /\
  (preemph_coeff o <? 0)%float = false.
Proof.
  intro H. apply FrameOpts_Check_Ok in H as (_ & _ & Hlo & Hhi).
  revert Hlo Hhi. unfold nonfinite. rewrite leb_spec, !ltb_spec.
  change (Prim2SF 0) with (S754_zero false).
  change (Prim2SF 1) with (S754_finite false 4503599627370496 (-52)).
  unfold SFleb, SFltb.
  destruct (Prim2SF (preemph_coeff o)) as [s | s | | s m e];
    try (destruct s); cbn [SFcompare]; intros Hlo Hhi;
    try discriminate; split; reflexivity.
Qed.

Lemma Check_preemph_finite_witness :
  FrameOpts_Check FrameOpts_default = Ok tt /\
  nonfinite (preemph_coeff FrameOpts_default) = false /\
  (preemph_coeff FrameOpts_default <? 0)%float = false.
Proof.
  split; [reflexivity |].
  apply (Check_preemph_finite FrameOpts_default). reflexivity.
Defined.

(** ** From the constructors of the options to the computers *)

(** X3.  An [FbankOpts] built by [FbankOpts(num_bins, low, high, power,
    log)] passes [Check] exactly when [num_bins >= 3] and [low >= 0], and
    an [MfccOpts] built by [MfccOpts(num_ceps, energy, cepstral)] exactly
    when [num_ceps >= 1]; on a configuration so built that passes, the
    constructor of the computer does not stop on an assertion. *)
Theorem defaulted_options_construct (ext : Externals) :
  (forall num_bins low high power log,
     (FbankOpts_Check (FbankOpts_new num_bins low high power log) = Ok tt
      <-> 3 <= num_bins /\ 0 <= low) /\
     (3 <= num_bins -> 0 <= low ->
      FbankComputer_new ext (FbankOpts_new num_bins low high power log)
      <> Halt AssertionFailed)) /\
  (forall ceps energy cepstral,
     (MfccOpts_Check (MfccOpts_new ceps energy cepstral) = Ok tt
      <-> 1 <= ceps) /\
     (1 <= ceps ->
      MfccComputer_new ext (MfccOpts_new ceps energy cepstral)
      <> Halt AssertionFailed)).
Proof.
  split.
  - intros num_bins low high power log.
    assert (Hiff : FbankOpts_Check (FbankOpts_new num_bins low high power log)
                   = Ok tt <-> 3 <= num_bins /\ 0 <= low).
    { rewrite FbankOpts_Check_Ok.
      cbn [FbankOpts_new spectrogram_opts num_mel_bins lower_bound].
      assert (SpectrogramOpts_Check (force_raw_power SpectrogramOpts_default)
              = Ok tt) by (vm_compute; reflexivity).
      tauto. }
    split; [exact Hiff |]. intros Hb Hl.
    apply FbankComputer_new_no_assertion; [| reflexivity].
    apply Hiff. auto.
  - intros ceps energy cepstral.
    assert (Hiff : MfccOpts_Check (MfccOpts_new ceps energy cepstral) = Ok tt
                   <-> 1 <= ceps).
    { rewrite MfccOpts_Check_Ok. cbn [MfccOpts_new fbank_opts num_ceps].
      assert (FbankOpts_Check (force_log_mel FbankOpts_default) = Ok tt)
        by (vm_compute; reflexivity).
      tauto. }
    split; [exact Hiff |]. intro Hc.
    apply MfccComputer_new_no_assertion; [| reflexivity | reflexivity].
    apply Hiff. exact Hc.
Qed.

Lemma defaulted_options_construct_witness :
  (3 <= 40 /\ 0 <= 64 /\
   FbankOpts_Check (FbankOpts_new 40 64 (-200) false true) = Ok tt /\
   FbankComputer_new Host.env (FbankOpts_new 40 64 (-200) false true)
   <> Halt AssertionFailed) /\
  (1 <= 20 /\
   MfccComputer_new Host.env (MfccOpts_new 20 false 22%float)
   <> Halt AssertionFailed).
Proof.
  destruct (defaulted_options_construct Host.env) as [Hb Hm].
  destruct (Hb 40 64 (-200) false true) as [Hiff Hbuild].
  destruct (Hm 20 false 22%float) as [_ Hmfcc].
  assert (H3 : 3 <= 40) by (vm_compute; discriminate).
  assert (H0 : 0 <= 64) by (vm_compute; discriminate).
  assert (H1 : 1 <= 20) by (vm_compute; discriminate).
  split.
  - split; [exact H3 |]. split; [exact H0 |].
    split; [apply Hiff; split; assumption | exact (Hbuild H3 H0)].
  - split; [exact H1 | exact (Hmfcc H1)].
Defined.

Lemma force_raw_power_flags (s : SpectrogramOpts) :
  apply_log (force_raw_power s) = false /\
  use_log_raw_energy (force_raw_power s) = false /\
  apply_pow (force_raw_power s) = apply_pow s /\
  frame_opts (force_raw_power s) = frame_opts s.
Proof. repeat split. Qed.

(** X4.  Whatever the parser binds, an [FbankOpts] that went through
    [ParseConfigure] has the spectrogram flags [apply_log] and
    [use_log_raw_energy] off, and an [MfccOpts] that went through
    [ParseConfigure] has in addition [apply_pow] and the filter bank's
    [apply_log] on; so when [Check] succeeds on the parsed options the
    constructor of the computer does not stop on an assertion. *)
Theorem parsed_options_construct (ext : Externals)
    (parser : ConfigureParser ext) :
  (forall o o',
     FbankOpts_ParseConfigure ext parser o = Ok o' ->
     raw_power_flags o' = true /\
     (FbankOpts_Check o' = Ok tt ->
      FbankComputer_new ext o' <> Halt AssertionFailed)) /\
  (forall o o',
     MfccOpts_ParseConfigure ext parser o = Ok o' ->
     raw_power_flags (fbank_opts o') = true /\
     log_mel_flags o' = true /\
     (MfccOpts_Check o' = Ok tt ->
      MfccComputer_new ext o' <> Halt AssertionFailed)).
Proof.
  split; intros o o' H.
  - pose proof (FbankOpts_ParseConfigure_raw_power ext parser o o' H) as Hf.
    split; [exact Hf |]. intro Hc.
    apply FbankComputer_new_no_assertion; assumption.
  - unfold MfccOpts_ParseConfigure in H.
    apply bind_Ok in H as (f & Hparse & H). injection H as <-.
    pose proof (FbankOpts_ParseConfigure_raw_power ext parser _ f Hparse)
      as Hf.
    assert (Hraw : raw_power_flags (force_log_mel f) = true)
      by (unfold raw_power_flags in *; exact Hf).
    split; [exact Hraw |]. split; [reflexivity |]. intro Hc.
    apply MfccComputer_new_no_assertion; [exact Hc | exact Hraw | reflexivity].
Qed.

Lemma parsed_options_construct_witness :
  exists o',
    MfccOpts_ParseConfigure hamm_file_env tt
      (MfccOpts_of_FbankOpts
         (FbankOpts_of_SpectrogramOpts SpectrogramOpts_default)) = Ok o' /\
    raw_power_flags (fbank_opts o') = true /\
    log_mel_flags o' = true /\
    MfccOpts_Check o' = Ok tt /\
    MfccComputer_new hamm_file_env o' <> Halt AssertionFailed.
Proof.
  destruct (MfccOpts_ParseConfigure hamm_file_env tt
              (MfccOpts_of_FbankOpts
                 (FbankOpts_of_SpectrogramOpts SpectrogramOpts_default)))
    as [o' |] eqn:Hp; [| vm_compute in Hp; discriminate].
  destruct (parsed_options_construct hamm_file_env tt) as [_ Hm].
  destruct (Hm _ o' Hp) as (Hraw & Hlog & Hbuild).
  assert (Hc : MfccOpts_Check o' = Ok tt).
  { vm_compute in Hp. injection Hp as <-. reflexivity. }
  exists o'. split; [reflexivity |]. split; [exact Hraw |].
  split; [exact Hlog |]. split; [exact Hc | exact (Hbuild Hc)].
Defined.

(** X6.  An [FbankOpts] copied from [SpectrogramOpts(const FrameOpts &)]
    never becomes an [FbankComputer], whatever the frame options and the
    helper routines: the construction always stops.  The same holds for
    an [MfccOpts] copied from an [FbankOpts] built without log
    compression. *)
Theorem copied_options_never_construct (ext : Externals) :
  (forall f : FrameOpts,
     exists why,
       FbankComputer_new ext
         (FbankOpts_of_SpectrogramOpts (SpectrogramOpts_of_FrameOpts f))
       = Halt why) /\
  (forall num_bins low high power,
     exists why,
       MfccComputer_new ext
         (MfccOpts_of_FbankOpts (FbankOpts_new num_bins low high power false))
       = Halt why).
Proof.
  split.
  - intro f.
    destruct (FbankComputer_new ext
                (FbankOpts_of_SpectrogramOpts (SpectrogramOpts_of_FrameOpts f)))
      as [c | why] eqn:H; [| exists why; reflexivity].
    apply FbankComputer_new_flags in H as [H _]. discriminate.
  - intros num_bins low high power.
    destruct (MfccComputer_new ext
                (MfccOpts_of_FbankOpts
                   (FbankOpts_new num_bins low high power false)))
      as [c | why] eqn:H; [| exists why; reflexivity].
    unfold MfccComputer_new in H.
    apply bind_Ok in H as (fb & _ & H).
    apply bind_Ok in H as ([] & _ & H).
    apply bind_Ok in H as (l & _ & H).
    apply bind_Ok in H as ([] & Hflags & _).
    apply ASSERT_Ok in Hflags. discriminate.
Qed.

(** ** What a constructed object holds *)

Section Built.

Variable ext : Externals.

Lemma FrameSplitter_new_inv (o : FrameOpts) (fs : FrameSplitter) :
  FrameSplitter_new ext o = Ok fs ->
  FrameOpts_Check o = Ok tt /\
  frame_opts_ fs = o /\
  prev_discard_size_ fs = 0 /\
  0 <= Int32.mul (frame_length o) 2 /\
  online_use_ fs
  = repeat 0%float (Z.to_nat (Int32.mul (frame_length o) 2)) /\
  (window_ fs = None <-> window_type o = kNone).
Proof.
  unfold FrameSplitter_new. intro H.
  apply bind_Ok in H as ([] & Hcheck & H).
  apply bind_Ok in H as (online & Honline & H).
  apply bind_Ok in H as (window & Hwindow & H).
  injection H as <-. cbn.
  apply new_Float32_Ok in Honline as [Hpos ->].
  repeat split; try assumption.
  - intro Hnone. subst window.
    destruct (window_type o); try reflexivity;
      cbn [WindowType_eqb] in Hwindow;
      apply bind_Ok in Hwindow as (w & _ & Hw); discriminate.
  - intro Hk. rewrite Hk in Hwindow. cbn [WindowType_eqb] in Hwindow.
    congruence.
Qed.

Lemma SpectrogramComputer_new_inv (o : SpectrogramOpts)
    (c : SpectrogramComputer ext) :
  SpectrogramComputer_new ext o = Ok c ->
  FrameSplitter_new ext (frame_opts o) = Ok (splitter c) /\
  apply_pow_ c = apply_pow o /\
  apply_log_ c = apply_log o /\
  use_log_raw_energy_ c = use_log_raw_energy o /\
  padding_length_ c = FrameSplitter_PaddingLength ext (splitter c) /\
  realfft_cache_ c = repeat 0%float (Z.to_nat (padding_length_ c)).
Proof.
  unfold SpectrogramComputer_new. intro H.
  apply bind_Ok in H as (fs & Hfs & H).
  apply bind_Ok in H as (cache & Hcache & H).
  injection H as <-. cbn.
  apply new_Float32_Ok in Hcache as [_ ->].
  repeat split. exact Hfs.
Qed.

Lemma FbankComputer_new_inv (o : FbankOpts) (c : FbankComputer ext) :
  FbankComputer_new ext o = Ok c ->
  SpectrogramComputer_new ext (spectrogram_opts o)
  = Ok (spectrogram_computer_ c) /\
  FbankOpts_Check o = Ok tt /\
  raw_power_flags o = true /\
  fbank_apply_log_ c = fbank_apply_log o /\
  num_bins_ c = num_mel_bins o /\
  lower_bound_ c = lower_bound o /\
  spectrum_cache_ c
  = repeat 0%float
      (Z.to_nat (SpectrogramComputer_FeatureDim (spectrogram_computer_ c))).
Proof.
  unfold FbankComputer_new. intro H.
  apply bind_Ok in H as (sc & Hsc & H).
  apply bind_Ok in H as ([] & Hcheck & H).
  apply bind_Ok in H as ([] & Hflags & H).
  apply bind_Ok in H as (cache & Hcache & H).
  apply bind_Ok in H as (mel & _ & H).
  injection H as <-. cbn.
  apply new_Float32_Ok in Hcache as [_ ->].
  apply ASSERT_Ok in Hflags.
  repeat split; assumption.
Qed.

Lemma MfccComputer_new_inv (o : MfccOpts) (c : MfccComputer ext) :
  MfccComputer_new ext o = Ok c ->
  FbankComputer_new ext (fbank_opts o) = Ok (fbank_computer c) /\
  MfccOpts_Check o = Ok tt /\
  log_mel_flags o = true /\
  num_ceps_ c = num_ceps o /\
  use_energy_ c = use_energy o /\
  cepstral_lifter_ c = cepstral_lifter o /\
  lifter_coeffs_ c
  = map (lifter_coeff ext (cepstral_lifter o)) (indices (num_ceps o)) /\
  mel_energy_cache_ c
  = repeat 0%float (Z.to_nat (FbankComputer_FeatureDim (fbank_computer c))).
Proof.
  unfold MfccComputer_new. intro H.
  apply bind_Ok in H as (fb & Hfb & H).
  apply bind_Ok in H as ([] & Hcheck & H).
  apply bind_Ok in H as (l & _ & H).
  apply bind_Ok in H as ([] & Hflags & H).
  apply bind_Ok in H as (d & _ & H).
  apply bind_Ok in H as (cache & Hcache & H).
  injection H as <-. cbn.
  apply new_Float32_Ok in Hcache as [_ ->].
  apply ASSERT_Ok in Hflags.
  repeat split; assumption.
Qed.

End Built.

(** X7.  In every constructed [MfccComputer] the inner filter bank has
    log compression on and the innermost spectrogram computer has power on,
    log off and raw energy off, whatever way the options were made; in an
    [FbankComputer] built from [FbankOpts(num_bins, low, high, power,
    log)] the spectrogram computer has power on whatever [power] is. *)
Theorem constructed_flags (ext : Externals) :
  (forall o (c : MfccComputer ext),
     MfccComputer_new ext o = Ok c ->
     fbank_apply_log_ (fbank_computer c) = true /\
     apply_pow_ (spectrogram_computer_ (fbank_computer c)) = true /\
     apply_log_ (spectrogram_computer_ (fbank_computer c)) = false /\
     use_log_raw_energy_ (spectrogram_computer_ (fbank_computer c)) = false) /\
  (forall num_bins low high power log (c : FbankComputer ext),
     FbankComputer_new ext (FbankOpts_new num_bins low high power log) = Ok c ->
     apply_pow_ (spectrogram_computer_ c) = true /\
     fbank_apply_log_ c = log).
Proof.
  split.
  - intros o c H.
    apply MfccComputer_new_inv in H as (Hfb & _ & Hlog & _).
    apply andb_true_iff in Hlog as [Hpow Hlog].
    pose proof (FbankComputer_new_flags ext _ _ Hfb) as (_ & Hl & Hr).
    apply FbankComputer_new_inv in Hfb as (Hsc & _ & _ & Hfl & _).
    apply SpectrogramComputer_new_inv in Hsc as (_ & Hp & _).
    rewrite Hfl, Hp. auto.
  - intros num_bins low high power log c H.
    apply FbankComputer_new_inv in H as (Hsc & _ & _ & Hfl & _).
    apply SpectrogramComputer_new_inv in Hsc as (_ & Hp & _).
    rewrite Hfl, Hp. split; reflexivity.
Qed.

Lemma constructed_flags_witness :
  exists mc fc,
    MfccComputer_new Host.env MfccOpts_default = Ok mc /\
    FbankComputer_new Host.env (FbankOpts_new 23 20 0 false true) = Ok fc /\
    fbank_apply_log_ (fbank_computer mc) = true /\
    apply_log_ (spectrogram_computer_ (fbank_computer mc)) = false /\
    apply_pow_ (spectrogram_computer_ fc) = true.
Proof.
  destruct (MfccComputer_new Host.env MfccOpts_default)
    as [mc |] eqn:Hm; [| vm_compute in Hm; discriminate].
  destruct (FbankComputer_new Host.env (FbankOpts_new 23 20 0 false true))
    as [fc |] eqn:Hf; [| vm_compute in Hf; discriminate].
  destruct (constructed_flags Host.env) as [H1 H2].
  destruct (H1 _ mc Hm) as (Ha & _ & Hb & _).
  destruct (H2 _ _ _ _ _ fc Hf) as [Hc _].
  exists mc, fc. repeat split; assumption.
Defined.

Lemma indices_length (n : Z) : length (indices n) = Z.to_nat n.
Proof. unfold indices. rewrite length_map, length_seq. reflexivity. Qed.

Lemma built_padding_range (ext : Externals) (o : SpectrogramOpts)
    (c : SpectrogramComputer ext) :
  SpectrogramComputer_new ext o = Ok c ->
  0 <= padding_length_ c <= Int32.max_signed /\
  1 <= SpectrogramComputer_FeatureDim c.
Proof.
  intro H. pose proof (SpectrogramComputer_new_padding ext o c H) as Hp.
  split; [exact Hp |]. rewrite FeatureDim_of_padding by exact Hp.
  pose proof (Z.div_pos (padding_length_ c) 2). lia.
Qed.

(** X8.  In a constructed [MfccComputer] the scratch buffers the
    constructors allocate and keep have the size of what they hold: a
    mel-energy cache of [FeatureDim] of the filter bank, a spectrum cache
    of [FeatureDim] of the spectrogram computer, an FFT cache of the
    padding length and, the doubled frame length being an [Int32], an
    online cache of twice the frame length. *)
Theorem constructed_buffer_sizes (ext : Externals) (o : MfccOpts)
    (c : MfccComputer ext) :
  MfccComputer_new ext o = Ok c ->
  Z.of_nat (length (mel_energy_cache_ c))
  = FbankComputer_FeatureDim (fbank_computer c) /\
  Z.of_nat (length (spectrum_cache_ (fbank_computer c)))
  = SpectrogramComputer_FeatureDim (spectrogram_computer_ (fbank_computer c)) /\
  Z.of_nat (length (realfft_cache_ (spectrogram_computer_ (fbank_computer c))))
  = SpectrogramComputer_PaddingLength
      (spectrogram_computer_ (fbank_computer c)) /\
  (Int32.in_range
     (2 * frame_length (frame_opts (spectrogram_opts (fbank_opts o)))) ->
   Z.of_nat (length (online_use_ (MfccComputer_splitter c)))
   = 2 * FrameSplitter_FrameLength (MfccComputer_splitter c)).
Proof.
  intro H. unfold MfccComputer_splitter.
  apply MfccComputer_new_inv in H
    as (Hfb & Hcheck & _ & _ & _ & _ & _ & ->).
  apply MfccOpts_Check_Ok in Hcheck as [Hbcheck _].
  apply FbankOpts_Check_Ok in Hbcheck as (_ & Hb3 & _).
  pose proof Hfb as Hfb'.
  apply FbankComputer_new_inv in Hfb' as (Hsc & _ & _ & _ & Hbins & _ & ->).
  pose proof (built_padding_range ext _ _ Hsc) as [Hpad Hdim].
  apply SpectrogramComputer_new_inv in Hsc as (Hfs & _ & _ & _ & _ & ->).
  apply FrameSplitter_new_inv in Hfs as (_ & Hopts & _ & Hpos & -> & _).
  unfold FbankComputer_FeatureDim,
    SpectrogramComputer_PaddingLength, FrameSplitter_FrameLength.
  rewrite !repeat_length, Hbins, Hopts.
  repeat split; try lia.
  intro Hrange. unfold Int32.mul in *.
  rewrite (Z.mul_comm _ 2) in *. rewrite wrap_in_range in * by exact Hrange.
  lia.
Qed.

Lemma constructed_buffer_sizes_witness :
  exists c,
    MfccComputer_new Host.env MfccOpts_default = Ok c /\
    Int32.in_range
      (2 * frame_length
             (frame_opts (spectrogram_opts (fbank_opts MfccOpts_default)))) /\
    Z.of_nat (length (mel_energy_cache_ c))
    = FbankComputer_FeatureDim (fbank_computer c) /\
    Z.of_nat (length (spectrum_cache_ (fbank_computer c)))
    = SpectrogramComputer_FeatureDim
        (spectrogram_computer_ (fbank_computer c)) /\
    Z.of_nat (length (online_use_ (MfccComputer_splitter c)))
    = 2 * FrameSplitter_FrameLength (MfccComputer_splitter c).
Proof.
  destruct (MfccComputer_new Host.env MfccOpts_default)
    as [c |] eqn:Hc; [| vm_compute in Hc; discriminate].
  destruct (constructed_buffer_sizes Host.env MfccOpts_default c Hc)
    as (H1 & H2 & _ & H4).
  assert (Hr : Int32.in_range
                 (2 * frame_length
                        (frame_opts
                           (spectrogram_opts (fbank_opts MfccOpts_default)))))
    by (vm_compute; split; discriminate).
  exists c. split; [reflexivity |]. split; [exact Hr |].
  split; [exact H1 |]. split; [exact H2 | exact (H4 Hr)].
Defined.

(** X9.  A constructed [MfccComputer] has at least 1 cepstral
    coefficient, its filter bank at least 3 mel bins and a lower bound
    that is not negative, its spectrogram computer a feature dimension of
    at least 1; its splitter starts with no carried tail, a non-zero
    sample rate and a frame shift no larger than the frame length. *)
Theorem constructed_ranges (ext : Externals) (o : MfccOpts)
    (c : MfccComputer ext) :
  MfccComputer_new ext o = Ok c ->
  1 <= MfccComputer_FeatureDim c /\
  3 <= FbankComputer_FeatureDim (fbank_computer c) /\
  0 <= lower_bound_ (fbank_computer c) /\
  1 <= SpectrogramComputer_FeatureDim
         (spectrogram_computer_ (fbank_computer c)) /\
  prev_discard_size_ (MfccComputer_splitter c) = 0 /\
  FrameSplitter_SampleRate (MfccComputer_splitter c) <> 0 /\
  FrameSplitter_FrameShift (MfccComputer_splitter c)
  <= FrameSplitter_FrameLength (MfccComputer_splitter c).
Proof.
  intro H. unfold MfccComputer_splitter.
  apply MfccComputer_new_inv in H as (Hfb & Hcheck & _ & Hceps & _).
  apply MfccOpts_Check_Ok in Hcheck as [Hbcheck Hc1].
  apply FbankOpts_Check_Ok in Hbcheck as (_ & Hb3 & Hlow).
  apply FbankComputer_new_inv in Hfb as (Hsc & _ & _ & _ & Hbins & Hlb & _).
  pose proof (built_padding_range ext _ _ Hsc) as [_ Hdim].
  apply SpectrogramComputer_new_inv in Hsc as (Hfs & _).
  apply FrameSplitter_new_inv in Hfs as (Hfcheck & Hopts & Hprev & _).
  apply FrameOpts_Check_Ok in Hfcheck as (Hrate & Hshift & _).
  unfold MfccComputer_FeatureDim, FbankComputer_FeatureDim,
    FrameSplitter_SampleRate, FrameSplitter_FrameShift,
    FrameSplitter_FrameLength.
  rewrite Hceps, Hbins, Hlb, Hopts. repeat split; assumption.
Qed.

Lemma constructed_ranges_witness :
  exists c,
    MfccComputer_new Host.env MfccOpts_default = Ok c /\
    1 <= MfccComputer_FeatureDim c /\
    3 <= FbankComputer_FeatureDim (fbank_computer c) /\
    prev_discard_size_ (MfccComputer_splitter c) = 0.
Proof.
  destruct (MfccComputer_new Host.env MfccOpts_default)
    as [c |] eqn:Hc; [| vm_compute in Hc; discriminate].
  destruct (constructed_ranges Host.env MfccOpts_default c Hc)
    as (H1 & H2 & _ & _ & H5 & _).
  exists c. split; [reflexivity |]. split; [exact H1 |].
  split; [exact H2 | exact H5].
Defined.

(** X10.  [FrameOpts::Check] accepts a negative frame length when the
    frame shift is no larger.  The construction of the splitter then
    fails in the allocation of the online cache, and so does the
    construction of each computer above it: the member that holds the
    lower tier is built before the body of the constructor runs, so the
    failure comes before the checks of the upper tiers. *)
Theorem negative_frame_length_fails_allocation (ext : Externals)
    (o : MfccOpts) :
  FrameOpts_Check (frame_opts (spectrogram_opts (fbank_opts o))) = Ok tt ->
  frame_length (frame_opts (spectrogram_opts (fbank_opts o))) < 0 ->
  Int32.in_range
    (2 * frame_length (frame_opts (spectrogram_opts (fbank_opts o)))) ->
  FrameSplitter_new ext (frame_opts (spectrogram_opts (fbank_opts o)))
  = Halt BadAlloc /\
  SpectrogramComputer_new ext (spectrogram_opts (fbank_opts o))
  = Halt BadAlloc /\
  FbankComputer_new ext (fbank_opts o) = Halt BadAlloc /\
  MfccComputer_new ext o = Halt BadAlloc.
Proof.
  intros Hcheck Hneg Hrange.
  assert (Hfs : FrameSplitter_new ext
                  (frame_opts (spectrogram_opts (fbank_opts o)))
                = Halt BadAlloc).
  { unfold FrameSplitter_new. rewrite Hcheck. cbn [bind].
    unfold new_Float32, Int32.mul.
    rewrite (Z.mul_comm _ 2), wrap_in_range by exact Hrange.
    destruct (Z.ltb_spec
                (2 * frame_length
                       (frame_opts (spectrogram_opts (fbank_opts o)))) 0);
      [reflexivity | lia]. }
  assert (Hsc : SpectrogramComputer_new ext (spectrogram_opts (fbank_opts o))
                = Halt BadAlloc)
    by (unfold SpectrogramComputer_new; rewrite Hfs; reflexivity).
  assert (Hfb : FbankComputer_new ext (fbank_opts o) = Halt BadAlloc)
    by (unfold FbankComputer_new; rewrite Hsc; reflexivity).
  repeat split; try assumption.
  unfold MfccComputer_new. rewrite Hfb. reflexivity.
Qed.

Lemma negative_frame_length_fails_allocation_witness :
  FrameOpts_Check (FrameOpts_sized (-5) (-10) 16000) = Ok tt /\
  MfccOpts_Check
    (MfccOpts_of_FbankOpts
       (FbankOpts_of_SpectrogramOpts
          (SpectrogramOpts_of_FrameOpts (FrameOpts_sized (-5) (-10) 16000))))
  = Ok tt /\
  FrameSplitter_new Host.env (FrameOpts_sized (-5) (-10) 16000)
  = Halt BadAlloc /\
  MfccComputer_new Host.env
    (MfccOpts_of_FbankOpts
       (FbankOpts_of_SpectrogramOpts
          (SpectrogramOpts_of_FrameOpts (FrameOpts_sized (-5) (-10) 16000))))
  = Halt BadAlloc.
Proof.
  destruct (negative_frame_length_fails_allocation Host.env
              (MfccOpts_of_FbankOpts
                 (FbankOpts_of_SpectrogramOpts
                    (SpectrogramOpts_of_FrameOpts
                       (FrameOpts_sized (-5) (-10) 16000)))))
    as (H1 & _ & _ & H4).
  - reflexivity.
  - reflexivity.
  - vm_compute. split; discriminate.
  - split; [reflexivity |]. split; [reflexivity |].
    split; [exact H1 | exact H4].
Defined.

Lemma NumFrames_depends (fs fs' : FrameSplitter) (num_samps : Z) :
  frame_opts_ fs = frame_opts_ fs' ->
  prev_discard_size_ fs = prev_discard_size_ fs' ->
  FrameSplitter_NumFrames fs num_samps = FrameSplitter_NumFrames fs' num_samps.
Proof.
  intros Ho Hp. unfold FrameSplitter_NumFrames. rewrite Ho, Hp. reflexivity.
Qed.

(** X11.  Computers of the three tiers built on the same frame options
    give the same [NumFrames] for every number of samples, with the same
    warning or the same failure; after [Reset] a computer that has
    carried a tail answers as a newly built one. *)
Theorem tiers_agree_on_NumFrames (ext : Externals)
    (so : SpectrogramOpts) (fo : FbankOpts) (mo : MfccOpts)
    (sc : SpectrogramComputer ext) (fc : FbankComputer ext)
    (mc : MfccComputer ext) (num_samps tail : Z) :
  SpectrogramComputer_new ext so = Ok sc ->
  FbankComputer_new ext fo = Ok fc ->
  MfccComputer_new ext mo = Ok mc ->
  frame_opts (spectrogram_opts fo) = frame_opts so ->
  frame_opts (spectrogram_opts (fbank_opts mo)) = frame_opts so ->
  FbankComputer_NumFrames ext fc num_samps
  = SpectrogramComputer_NumFrames ext sc num_samps /\
  MfccComputer_NumFrames ext mc num_samps
  = SpectrogramComputer_NumFrames ext sc num_samps /\
  SpectrogramComputer_NumFrames ext
    (SpectrogramComputer_Reset ext
       (set_splitter ext
          {| frame_opts_ := frame_opts_ (splitter sc);
             window_ := window_ (splitter sc);
             online_use_ := online_use_ (splitter sc);
             prev_discard_size_ := tail |} sc))
    num_samps
  = SpectrogramComputer_NumFrames ext sc num_samps.
Proof.
  intros Hs Hf Hm Hfo Hmo.
  apply SpectrogramComputer_new_inv in Hs as (Hs & _).
  apply FrameSplitter_new_inv in Hs as (_ & Hso & Hsp & _).
  apply FbankComputer_new_inv in Hf as (Hf & _).
  apply SpectrogramComputer_new_inv in Hf as (Hf & _).
  apply FrameSplitter_new_inv in Hf as (_ & Hfo' & Hfp & _).
  apply MfccComputer_new_inv in Hm as (Hm & _).
  apply FbankComputer_new_inv in Hm as (Hm & _).
  apply SpectrogramComputer_new_inv in Hm as (Hm & _).
  apply FrameSplitter_new_inv in Hm as (_ & Hmo' & Hmp & _).
  unfold MfccComputer_NumFrames, FbankComputer_NumFrames,
    SpectrogramComputer_NumFrames.
  repeat split; apply NumFrames_depends; cbn; congruence.
Qed.

Lemma tiers_agree_on_NumFrames_witness :
  exists sc fc mc,
    SpectrogramComputer_new Host.env SpectrogramOpts_default = Ok sc /\
    FbankComputer_new Host.env FbankOpts_default = Ok fc /\
    MfccComputer_new Host.env MfccOpts_default = Ok mc /\
    FbankComputer_NumFrames Host.env fc 1000
    = SpectrogramComputer_NumFrames Host.env sc 1000 /\
    MfccComputer_NumFrames Host.env mc 1000
    = SpectrogramComputer_NumFrames Host.env sc 1000.
Proof.
  destruct (SpectrogramComputer_new Host.env SpectrogramOpts_default)
    as [sc |] eqn:Hs; [| vm_compute in Hs; discriminate].
  destruct (FbankComputer_new Host.env FbankOpts_default)
    as [fc |] eqn:Hf; [| vm_compute in Hf; discriminate].
  destruct (MfccComputer_new Host.env MfccOpts_default)
    as [mc |] eqn:Hm; [| vm_compute in Hm; discriminate].
  destruct (tiers_agree_on_NumFrames Host.env _ _ _ sc fc mc 1000 240
              Hs Hf Hm eq_refl eq_refl) as (H1 & H2 & _).
  exists sc, fc, mc. repeat split; assumption.
Defined.

(** ** The value of [NumFrames] *)

Section NumFramesValue.

Variable fs : FrameSplitter.

Let Len := frame_length (frame_opts_ fs).
Let Sh := frame_shift (frame_opts_ fs).
Let tail := prev_discard_size_ fs.

Hypothesis shift_pos : 0 < Sh.
Hypothesis shift_le_length : Sh <= Len.
Hypothesis length_max : Len <= Int32.max_signed.
Hypothesis tail_nonneg : 0 <= tail.

Lemma NumFrames_quot (num_samps : Z) :
  0 <= num_samps -> num_samps + tail <= Int32.max_signed ->
  FrameSplitter_NumFrames fs num_samps
  = Ok (Z.quot (num_samps + tail - Len) Sh + 1,
        Z.quot (num_samps + tail - Len) Sh + 1 =? 0).
Proof.
  intros Hn Hmax. unfold FrameSplitter_NumFrames. fold Len Sh tail.
  unfold Int32.max_signed in *.
  destruct (Z.eqb_spec Sh 0) as [E | _]; [lia |].
  unfold Int32.add, Int32.sub, Int32.quot.
  rewrite (wrap_in_range (num_samps + tail))
    by (unfold Int32.in_range, Int32.min_signed, Int32.max_signed; lia).
  rewrite (wrap_in_range (num_samps + tail - Len))
    by (unfold Int32.in_range, Int32.min_signed, Int32.max_signed; lia).
  assert (Hq : - (2 ^ 31 - 1) <= Z.quot (num_samps + tail - Len) Sh
               <= 2 ^ 31 - 2).
  { destruct (Z.le_gt_cases 0 (num_samps + tail - Len)) as [Hpos | Hneg].
    - rewrite Z.quot_div_nonneg by lia.
      pose proof (Z.div_pos (num_samps + tail - Len) Sh Hpos shift_pos).
      assert ((num_samps + tail - Len) / Sh <= num_samps + tail - Len)
        by (apply Z.div_le_upper_bound; nia).
      lia.
    - replace (num_samps + tail - Len) with (- (Len - num_samps - tail))
        by lia.
      rewrite Z.quot_opp_l, Z.quot_div_nonneg by lia.
      pose proof (Z.div_pos (Len - num_samps - tail) Sh ltac:(lia) shift_pos).
      assert ((Len - num_samps - tail) / Sh <= Len - num_samps - tail)
        by (apply Z.div_le_upper_bound; nia).
      lia. }
  rewrite (wrap_in_range (Z.quot (num_samps + tail - Len) Sh))
    by (unfold Int32.in_range, Int32.min_signed, Int32.max_signed; lia).
  rewrite wrap_in_range
    by (unfold Int32.in_range, Int32.min_signed, Int32.max_signed; lia).
  reflexivity.
Qed.

Lemma quot_sign_cases (a : Z) :
  (0 <= Z.quot a Sh <-> - Sh < a) /\
  (Z.quot a Sh = -1 <-> - 2 * Sh < a <= - Sh).
Proof.
  destruct (Z.le_gt_cases 0 a) as [Hpos | Hneg].
  - rewrite Z.quot_div_nonneg by lia.
    pose proof (Z.div_pos a Sh Hpos shift_pos). lia.
  - replace a with (- (- a)) at 1 3 by lia.
    rewrite Z.quot_opp_l, Z.quot_div_nonneg by lia.
    pose proof (Z.div_pos (- a) Sh ltac:(lia) shift_pos).
    pose proof (Z.div_mod (- a) Sh ltac:(lia)).
    pose proof (Z.mod_pos_bound (- a) Sh shift_pos).
    split; split; intro Hq; nia.
Qed.

(** X12.  For a splitter with [0 < frame_shift <= frame_length] and
    sample counts within [Int32], [NumFrames] returns: at least 1
    exactly when the samples and the carried tail together exceed
    [frame_length - frame_shift]; 0, with the warning, exactly when they
    lie in [(frame_length - 2 * frame_shift, frame_length - frame_shift]];
    a negative value, without warning, below that. *)
Theorem NumFrames_sign (num_samps : Z) :
  0 <= num_samps -> num_samps + tail <= Int32.max_signed ->
  exists k w,
    FrameSplitter_NumFrames fs num_samps = Ok (k, w) /\
    (1 <= k <-> Len - Sh < num_samps + tail) /\
    (w = true <-> Len - 2 * Sh < num_samps + tail <= Len - Sh) /\
    (k = 0 <-> w = true) /\
    (k < 0 <-> num_samps + tail <= Len - 2 * Sh).
Proof.
  intros Hn Hmax. rewrite NumFrames_quot by assumption.
  destruct (quot_sign_cases (num_samps + tail - Len)) as [Hnonneg Hminus].
  do 2 eexists. split; [reflexivity |].
  rewrite Z.eqb_eq. repeat split; intros; lia.
Qed.

(** X13.  Under the same conditions [NumFrames] does not decrease when
    more samples are given. *)
Theorem NumFrames_monotone (n1 n2 : Z) :
  0 <= n1 -> n1 <= n2 -> n2 + tail <= Int32.max_signed ->
  exists k1 w1 k2 w2,
    FrameSplitter_NumFrames fs n1 = Ok (k1, w1) /\
    FrameSplitter_NumFrames fs n2 = Ok (k2, w2) /\
    k1 <= k2.
Proof.
  intros H1 H12 Hmax. rewrite !NumFrames_quot by lia.
  do 4 eexists. split; [reflexivity |]. split; [reflexivity |].
  pose proof (Z.quot_le_mono (n1 + tail - Len) (n2 + tail - Len) Sh
                shift_pos ltac:(lia)).
  lia.
Qed.

(** X14.  Where the samples and the carried tail hold at least one
    frame, [NumFrames] gives no warning and returns the number [k] of
    complete frames: frame [k - 1] ends within the samples and a frame
    [k] would not. *)
Theorem NumFrames_counts_complete_frames (num_samps : Z) :
  0 <= num_samps -> num_samps + tail <= Int32.max_signed ->
  Len <= num_samps + tail ->
  exists k,
    FrameSplitter_NumFrames fs num_samps = Ok (k, false) /\
    1 <= k /\
    (k - 1) * Sh + Len <= num_samps + tail < k * Sh + Len.
Proof.
  intros Hn Hmax Have.
  exists ((num_samps + tail - Len) / Sh + 1).
  split; [apply NumFrames_available; assumption |].
  pose proof (Z.div_pos (num_samps + tail - Len) Sh ltac:(lia) shift_pos).
  pose proof (Z.div_mod (num_samps + tail - Len) Sh ltac:(lia)).
  pose proof (Z.mod_pos_bound (num_samps + tail - Len) Sh shift_pos).
  split; nia.
Qed.

End NumFramesValue.

Lemma NumFrames_sign_witness :
  exists k w,
    FrameSplitter_NumFrames Host.default_splitter 300 = Ok (k, w) /\
    (1 <= k <-> 400 - 160 < 300 + 0) /\
    (w = true <-> 400 - 2 * 160 < 300 + 0 <= 400 - 160).
Proof.
  destruct (NumFrames_sign Host.default_splitter) with (num_samps := 300)
    as (k & w & H & H1 & H2 & _);
    try (vm_compute; (reflexivity || discriminate)).
  exists k, w. split; [exact H |]. split; [exact H1 | exact H2].
Defined.

Lemma NumFrames_monotone_witness :
  exists k1 w1 k2 w2,
    FrameSplitter_NumFrames Host.default_splitter 100 = Ok (k1, w1) /\
    FrameSplitter_NumFrames Host.default_splitter 1000 = Ok (k2, w2) /\
    k1 <= k2.
Proof.
  apply (NumFrames_monotone Host.default_splitter);
    vm_compute; (reflexivity || discriminate).
Defined.

Lemma NumFrames_counts_complete_frames_witness :
  exists k,
    FrameSplitter_NumFrames Host.default_splitter 1000 = Ok (k, false) /\
    1 <= k /\
    (k - 1) * 160 + 400 <= 1000 + 0 < k * 160 + 400.
Proof.
  apply (NumFrames_counts_complete_frames Host.default_splitter);
    vm_compute; (reflexivity || discriminate).
Defined.

(** ** Calls of [FrameForIndex] made by [Frame] *)

Lemma NumFrames_in_range (fs : FrameSplitter) (num_samps k : Z) (w : bool) :
  FrameSplitter_NumFrames fs num_samps = Ok (k, w) -> Int32.in_range k.
Proof.
  unfold FrameSplitter_NumFrames.
  destruct (frame_shift (frame_opts_ fs) =? 0); [discriminate |].
  intro H. injection H as <- _. apply wrap_range.
Qed.

Lemma Frame_loop_keeps (P : FrameSplitter -> list Float32 -> Prop)
    (ffi : FrameForIndex_t) (signal : list Float32) (num_samps stride : Z) :
  (forall fs t mem off fs' mem',
     P fs mem -> ffi fs signal num_samps t mem off = Ok (fs', mem') ->
     P fs' mem') ->
  forall (count : nat) (t : Z) fs frames fs' frames',
    P fs frames ->
    Frame_loop ffi signal num_samps stride count t fs frames
    = Ok (fs', frames') ->
    P fs' frames'.
Proof.
  intros Hstep. induction count as [| count IH];
    intros t fs frames fs' frames' HP Hrun; cbn [Frame_loop] in Hrun.
  - injection Hrun as <- <-. exact HP.
  - apply bind_Ok in Hrun as ([fs1 mem1] & Hcall & Hrun).
    apply (IH _ _ _ _ _ (Hstep _ _ _ _ _ _ HP Hcall) Hrun).
Qed.

(** X15.  [Frame] keeps every property of the splitter and the
    destination that each call of [FrameForIndex] keeps; in particular
    the destination keeps its length when [FrameForIndex] never changes
    it. *)
Theorem Frame_keeps_invariant (P : FrameSplitter -> list Float32 -> Prop)
    (ffi : FrameForIndex_t) (signal : list Float32) (num_samps stride : Z)
    (fs : FrameSplitter) (frames : list Float32)
    (k : Z) (fs' : FrameSplitter) (frames' : list Float32) :
  (forall fs t mem off fs' mem',
     P fs mem -> ffi fs signal num_samps t mem off = Ok (fs', mem') ->
     P fs' mem') ->
  P fs frames ->
  FrameSplitter_Frame ffi signal num_samps stride fs frames
  = Ok (k, fs', frames') ->
  P fs' frames'.
Proof.
  intros Hstep HP H. unfold FrameSplitter_Frame in H.
  apply bind_Ok in H as ([] & _ & H).
  apply bind_Ok in H as ([n w] & _ & H).
  apply bind_Ok in H as ([fs1 mem1] & Hloop & H).
  injection H as _ <- <-.
  apply (Frame_loop_keeps P ffi signal num_samps stride Hstep _ _ _ _ _ _
           HP Hloop).
Qed.

Lemma FrameForIndex_spec_length (fs : FrameSplitter) (signal : list Float32)
    (num_samps t : Z) (mem : list Float32) (off : Z)
    (fs' : FrameSplitter) (mem' : list Float32) :
  FrameForIndex_spec fs signal num_samps t mem off = Ok (fs', mem') ->
  length mem' = length mem.
Proof.
  unfold FrameForIndex_spec. intro H.
  apply bind_Ok in H as (n & _ & H).
  destruct (t =? fst n - 1); injection H as _ <-; apply write_at_length.
Qed.

Lemma Frame_keeps_invariant_witness :
  exists k fs' frames',
    FrameSplitter_Frame FrameForIndex_spec (ramp 10) 10 4 small_splitter
      (repeat 0%float 16)
    = Ok (k, fs', frames') /\
    length frames' = 16%nat.
Proof.
  destruct (FrameSplitter_Frame FrameForIndex_spec (ramp 10) 10 4
              small_splitter (repeat 0%float 16))
    as [[[k fs'] frames'] | why] eqn:H; [| vm_compute in H; discriminate].
  exists k, fs', frames'. split; [reflexivity |].
  apply (Frame_keeps_invariant (fun _ mem => length mem = 16%nat)
           FrameForIndex_spec (ramp 10) 10 4 small_splitter
           (repeat 0%float 16) k fs' frames').
  - intros fs0 t mem off fs1 mem1 Hlen Hcall.
    rewrite (FrameForIndex_spec_length _ _ _ _ _ _ _ _ Hcall). exact Hlen.
  - reflexivity.
  - exact H.
Defined.

Lemma Frame_loop_calls (ffi ffi' : FrameForIndex_t) (signal : list Float32)
    (num_samps stride k : Z) :
  k <= Int32.max_signed ->
  (forall fs t mem,
     0 <= t < k ->
     ffi fs signal num_samps t mem (Int32.mul stride t)
     = ffi' fs signal num_samps t mem (Int32.mul stride t)) ->
  forall (count : nat) (t : Z) fs frames,
    0 <= t -> t + Z.of_nat count = k ->
    Frame_loop ffi signal num_samps stride count t fs frames
    = Frame_loop ffi' signal num_samps stride count t fs frames.
Proof.
  intros Hk Hsame. induction count as [| count IH];
    intros t fs frames Ht Hcount; cbn [Frame_loop]; [reflexivity |].
  rewrite Hsame by lia.
  destruct (ffi' fs signal num_samps t frames (Int32.mul stride t))
    as [[fs1 mem1] | why]; cbn [bind fst snd]; [| reflexivity].
  assert (Hnext : Int32.add t 1 = t + 1)
    by (apply wrap_in_range;
        unfold Int32.in_range, Int32.min_signed, Int32.max_signed in *; lia).
  rewrite Hnext. apply IH; lia.
Qed.

(** X16.  [Frame] calls [FrameForIndex] only for the indices
    [0 <= t < NumFrames], each with the destination offset [stride * t]:
    two versions of [FrameForIndex] that agree on these calls give the
    same result of [Frame]. *)
Theorem Frame_calls_within_count (ffi ffi' : FrameForIndex_t)
    (signal : list Float32) (num_samps stride : Z) (fs : FrameSplitter)
    (frames : list Float32) (k : Z) (w : bool) :
  FrameSplitter_NumFrames fs num_samps = Ok (k, w) ->
  (forall fs0 t mem,
     0 <= t < k ->
     ffi fs0 signal num_samps t mem (Int32.mul stride t)
     = ffi' fs0 signal num_samps t mem (Int32.mul stride t)) ->
  FrameSplitter_Frame ffi signal num_samps stride fs frames
  = FrameSplitter_Frame ffi' signal num_samps stride fs frames.
Proof.
  intros Hn Hsame. unfold FrameSplitter_Frame. rewrite Hn.
  destruct (ASSERT (frame_length (frame_opts_ fs) <=? stride));
    cbn [bind fst snd]; [| reflexivity].
  pose proof (NumFrames_in_range _ _ _ _ Hn) as [_ Hmax].
  destruct (Z.le_gt_cases k 0) as [Hle | Hpos].
  - replace (Z.to_nat k) with O by lia. reflexivity.
  - rewrite (Frame_loop_calls ffi ffi' signal num_samps stride k Hmax Hsame)
      by lia.
    reflexivity.
Qed.

Lemma Frame_calls_within_count_witness :
  FrameSplitter_NumFrames small_splitter 10 = Ok (4, false) /\
  FrameSplitter_Frame
    (fun fs signal n t mem off =>
       if t <? 4 then FrameForIndex_spec fs signal n t mem off
       else Halt HelperFailed)
    (ramp 10) 10 4 small_splitter (repeat 0%float 16)
  = FrameSplitter_Frame FrameForIndex_spec (ramp 10) 10 4 small_splitter
      (repeat 0%float 16).
Proof.
  assert (Hn : FrameSplitter_NumFrames small_splitter 10 = Ok (4, false))
    by (vm_compute; reflexivity).
  split; [exact Hn |].
  apply (Frame_calls_within_count _ _ _ _ _ _ _ 4 false Hn).
  intros fs0 t mem Ht.
  destruct (Z.ltb_spec t 4) as [_ | Hge]; [reflexivity | lia].
Defined.

(** X17.  [Frame] checks the stride first: with a stride below the frame
    length it stops on the assertion, even where [NumFrames] would divide
    by zero and without any call of [FrameForIndex]; with a sufficient
    stride and a zero frame shift it stops on the division; and when it
    returns, the stride was at least the frame length and the value is the
    one [NumFrames] returns for the splitter before the call. *)
Theorem Frame_outcomes (ffi : FrameForIndex_t) (signal : list Float32)
    (num_samps stride : Z) (fs : FrameSplitter) (frames : list Float32) :
  (stride < frame_length (frame_opts_ fs) ->
   FrameSplitter_Frame ffi signal num_samps stride fs frames
   = Halt AssertionFailed) /\
  (frame_length (frame_opts_ fs) <= stride ->
   frame_shift (frame_opts_ fs) = 0 ->
   FrameSplitter_Frame ffi signal num_samps stride fs frames
   = Halt DivisionByZero) /\
  (forall k fs' frames',
     FrameSplitter_Frame ffi signal num_samps stride fs frames
     = Ok (k, fs', frames') ->
     frame_length (frame_opts_ fs) <= stride /\
     exists w, FrameSplitter_NumFrames fs num_samps = Ok (k, w)).
Proof.
  unfold FrameSplitter_Frame. split; [| split].
  - intro H. apply Z.leb_gt in H. rewrite H. reflexivity.
  - intros H H0. apply Z.leb_le in H. rewrite H. cbn [ASSERT bind].
    unfold FrameSplitter_NumFrames. rewrite H0. reflexivity.
  - intros k fs' frames' H.
    apply bind_Ok in H as ([] & Ha & H).
    apply ASSERT_Ok, Z.leb_le in Ha. split; [exact Ha |].
    apply bind_Ok in H as ([n w] & Hn & H).
    apply bind_Ok in H as (r & _ & H).
    injection H as <- _ _. exists w. exact Hn.
Qed.

Lemma Frame_outcomes_witness :
  (3 < frame_length (frame_opts_ small_splitter) /\
   FrameSplitter_Frame FrameForIndex_spec (ramp 10) 10 3 small_splitter
     (repeat 0%float 16) = Halt AssertionFailed) /\
  (exists k fs' frames' w,
     FrameSplitter_Frame FrameForIndex_spec (ramp 10) 10 4 small_splitter
       (repeat 0%float 16) = Ok (k, fs', frames') /\
     FrameSplitter_NumFrames small_splitter 10 = Ok (k, w)).
Proof.
  split.
  - assert (H : 3 < frame_length (frame_opts_ small_splitter))
      by reflexivity.
    split; [exact H |].
    exact (proj1 (Frame_outcomes FrameForIndex_spec (ramp 10) 10 3
                    small_splitter (repeat 0%float 16)) H).
  - destruct (FrameSplitter_Frame FrameForIndex_spec (ramp 10) 10 4
                small_splitter (repeat 0%float 16))
      as [[[k fs'] frames'] | why] eqn:H; [| vm_compute in H; discriminate].
    destruct (proj2 (proj2 (Frame_outcomes FrameForIndex_spec (ramp 10) 10 4
                              small_splitter (repeat 0%float 16)))
                k fs' frames' H) as [_ [w Hw]].
    exists k, fs', frames', w. split; [reflexivity | exact Hw].
Defined.

(** ** Lifter coefficients for every lifter parameter *)

Lemma float_half_signed (x : float) (s : bool) (m : positive) (e : Z) :
  Prim2SF x = S754_finite s m e ->
  Prim2SF (0.5 * x) = S754_zero s \/
  exists m' e', Prim2SF (0.5 * x) = S754_finite s m' e'.
Proof.
  intro Hx. pose proof (Prim2SF_valid x) as Hv. rewrite Hx in Hv.
  rewrite mul_spec, Hx.
  change (Prim2SF 0.5) with (S754_finite false 4503599627370496 (-53)).
  unfold SF64mul, SFmul. cbn [xorb].
  cbn [SpecFloat.valid_binary] in Hv. unfold bounded in Hv.
  apply andb_true_iff in Hv as [Hc He].
  unfold canonical_mantissa in Hc. apply Z.eqb_eq in Hc. apply Z.leb_le in He.
  unfold fexp, SpecFloat.emin, prec, emax in Hc, He.
  apply binary_round_aux_finite.
  - cbn [Zdigits2]. rewrite digits2_pos_mul_half. lia.
  - lia.
Qed.

Lemma float_half_infinity (x : float) (s : bool) :
  Prim2SF x = S754_infinity s -> Prim2SF (0.5 * x) = S754_infinity s.
Proof.
  intro Hx. rewrite mul_spec, Hx.
  change (Prim2SF 0.5) with (S754_finite false 4503599627370496 (-53)).
  reflexivity.
Qed.

Lemma float_is_zero_SF (x : float) :
  float_is_zero x = true -> exists s, Prim2SF x = S754_zero s.
Proof.
  unfold float_is_zero. destruct (Prim2SF x) as [s | | |]; try discriminate.
  intros _. exists s. reflexivity.
Qed.

Lemma float_nan_of_SF (x : float) : Prim2SF x = S754_nan -> x = nan.
Proof. intro H. apply float_of_SF. rewrite H. reflexivity. Qed.

Section LifterCases.

Variable ext : Externals.

Hypothesis sin_zero :
  forall x, float_is_zero x = true -> float_is_zero (sin ext x) = true.
Hypothesis sin_nonfinite : forall x, nonfinite x = true -> sin ext x = nan.

Lemma lifter_nan_arg (cl : Float32) (i : Z) :
  nonfinite (PI ext * double_of_Int32 i / cl) = true ->
  lifter_coeff ext cl i = nan.
Proof.
  intro H. unfold lifter_coeff. rewrite (sin_nonfinite _ H).
  rewrite float_mul_nan_r, float_add_nan_l. reflexivity.
Qed.

Lemma lifter_degenerate (cl : Float32) (i : Z) :
  zero_or_nonfinite cl = true -> lifter_coeff ext cl i = nan.
Proof.
  unfold zero_or_nonfinite. intro Hcl.
  destruct (Prim2SF cl) as [s | s | | s m e] eqn:E; try discriminate.
  - apply lifter_nan_arg. unfold nonfinite. rewrite div_spec, E.
    destruct (Prim2SF (PI ext * double_of_Int32 i)); reflexivity.
  - destruct (nonfinite (PI ext * double_of_Int32 i / cl)) eqn:Hv;
      [apply lifter_nan_arg; exact Hv |].
    assert (Hz : float_is_zero (PI ext * double_of_Int32 i / cl) = true).
    { revert Hv. unfold nonfinite, float_is_zero. rewrite div_spec, E.
      destruct (Prim2SF (PI ext * double_of_Int32 i)); cbn;
        intro; (reflexivity || discriminate). }
    apply sin_zero, float_is_zero_SF in Hz as [s' Hs'].
    unfold lifter_coeff.
    replace (0.5 * cl * sin ext (PI ext * double_of_Int32 i / cl))%float
      with nan.
    + rewrite float_add_nan_l. reflexivity.
    + symmetry. apply float_nan_of_SF.
      rewrite mul_spec, Hs', (float_half_infinity cl s E). reflexivity.
  - apply lifter_nan_arg. unfold nonfinite. rewrite div_spec, E.
    destruct (Prim2SF (PI ext * double_of_Int32 i)); reflexivity.
Qed.

Lemma lifter_index_zero_finite (cl : Float32) :
  positive_finite (PI ext) = true ->
  zero_or_nonfinite cl = false ->
  lifter_coeff ext cl 0 = 1%float.
Proof.
  intros Hpi Hcl. unfold zero_or_nonfinite in Hcl.
  destruct (Prim2SF cl) as [s | s | | s m e] eqn:E; try discriminate.
  unfold lifter_coeff. change (double_of_Int32 0) with 0%float.
  rewrite (float_mul_zero_r _ Hpi).
  assert (Hz : float_is_zero (0 / cl) = true).
  { unfold float_is_zero. rewrite div_spec, E. reflexivity. }
  apply sin_zero, float_is_zero_SF in Hz as [s' Hs'].
  assert (H1 : (0.5 * cl * sin ext (0 / cl) + 1 = 1)%float).
  { apply float_of_SF. rewrite add_spec, mul_spec, Hs'.
    destruct (float_half_signed cl s m e E) as [-> | (m' & e' & ->)];
      reflexivity. }
  rewrite H1. reflexivity.
Qed.

End LifterCases.

(** X18.  With a cepstral lifter that is a zero of either sign, an
    infinity or a NaN, every lifter coefficient of a constructed
    [MfccComputer] is a NaN (the sine of a zero being a zero and the sine
    of an infinity or a NaN a NaN); [Check] accepts such a lifter. *)
Theorem degenerate_lifter_all_nan (ext : Externals) (o : MfccOpts)
    (c : MfccComputer ext) :
  (forall x, float_is_zero x = true -> float_is_zero (sin ext x) = true) ->
  (forall x, nonfinite x = true -> sin ext x = nan) ->
  zero_or_nonfinite (cepstral_lifter o) = true ->
  MfccComputer_new ext o = Ok c ->
  Forall (fun coeff => coeff = nan) (lifter_coeffs_ c) /\
  lifter_coeffs_ c <> [].
Proof.
  intros Hz Hn Hcl H.
  apply MfccComputer_new_inv in H as (_ & Hcheck & _ & _ & _ & _ & -> & _).
  apply MfccOpts_Check_Ok in Hcheck as [_ Hceps].
  split.
  - apply Forall_forall. intros coeff Hin.
    apply in_map_iff in Hin as (i & <- & _).
    apply lifter_degenerate; assumption.
  - intro Hnil. apply (f_equal (@length _)) in Hnil.
    rewrite length_map, indices_length in Hnil. cbn in Hnil. lia.
Qed.

Lemma cubic_sin_zero (x : float) :
  float_is_zero x = true -> float_is_zero (Host.cubic_sin x) = true.
Proof.
  intro H. apply float_is_zero_SF in H as [s H].
  assert (Hx : x = SF2Prim (S754_zero s))
    by (rewrite <- H; symmetry; apply SF2Prim_Prim2SF).
  rewrite Hx. destruct s; reflexivity.
Qed.

Lemma degenerate_lifter_all_nan_witness :
  exists c,
    MfccComputer_new Host.env (MfccOpts_new 13 true neg_infinity) = Ok c /\
    zero_or_nonfinite (cepstral_lifter (MfccOpts_new 13 true neg_infinity))
    = true /\
    Forall (fun coeff => coeff = nan) (lifter_coeffs_ c) /\
    lifter_coeffs_ c <> [].
Proof.
  destruct (MfccComputer_new Host.env (MfccOpts_new 13 true neg_infinity))
    as [c |] eqn:Hc; [| vm_compute in Hc; discriminate].
  exists c. split; [reflexivity |]. split; [reflexivity |].
  exact (degenerate_lifter_all_nan Host.env
           (MfccOpts_new 13 true neg_infinity) c cubic_sin_zero
           cubic_sin_nonfinite eq_refl Hc).
Defined.

(** X19.  The lifter coefficient of index 0 of a constructed
    [MfccComputer] is 1 for every finite lifter parameter other than
    zero, negative ones included, and a NaN for every other one ([PI]
    being positive and finite, the sine of a zero a zero, the sine of an
    infinity or a NaN a NaN). *)
Theorem lifter_index_zero (ext : Externals) (o : MfccOpts)
    (c : MfccComputer ext) :
  positive_finite (PI ext) = true ->
  (forall x, float_is_zero x = true -> float_is_zero (sin ext x) = true) ->
  (forall x, nonfinite x = true -> sin ext x = nan) ->
  MfccComputer_new ext o = Ok c ->
  nth 0 (lifter_coeffs_ c) 0%float
  = if zero_or_nonfinite (cepstral_lifter o) then nan else 1%float.
Proof.
  intros Hpi Hz Hn H.
  apply MfccComputer_new_inv in H as (_ & Hcheck & _ & _ & _ & _ & -> & _).
  apply MfccOpts_Check_Ok in Hcheck as [_ Hceps].
  rewrite (nth_map_indices _ (num_ceps o) 0) by lia.
  destruct (zero_or_nonfinite (cepstral_lifter o)) eqn:E.
  - apply lifter_degenerate; assumption.
  - apply lifter_index_zero_finite; assumption.
Qed.

Lemma lifter_index_zero_witness :
  exists c,
    MfccComputer_new Host.env (MfccOpts_new 13 true (-22)%float) = Ok c /\
    positive_finite (PI Host.env) = true /\
    nth 0 (lifter_coeffs_ c) 0%float = 1%float.
Proof.
  destruct (MfccComputer_new Host.env (MfccOpts_new 13 true (-22)%float))
    as [c |] eqn:Hc; [| vm_compute in Hc; discriminate].
  exists c. split; [reflexivity |]. split; [reflexivity |].
  exact (lifter_index_zero Host.env (MfccOpts_new 13 true (-22)%float) c eq_refl
           cubic_sin_zero cubic_sin_nonfinite Hc).
Defined.
